(** * Pulsetto controller: a shallow embedding of [controller.js]

    The class [PulsettoController] drives a Pulsetto neurostimulation
    device over Web Bluetooth.  Its fields, the part of the page it reads
    and writes, and the browser services it calls (clock, timers, [alert],
    the GATT write characteristic) are gathered in one record [World];
    every method becomes a function on [World].  An [async] method returns
    a [Promise]: it is either fulfilled or rejected, and in both cases it
    carries the state the method has left behind.

    Conventions of the model
    - a JavaScript string is a [string]; each character stands for one
      code unit below 256;
    - numbers that the code treats as integers (intensity, milliseconds,
      preset duration) are [Z];
    - an [async] method runs to completion without interleaving: a
      [delay] moves the clock forward and timers that became due fire
      afterwards, from the event loop ([fire]);
    - [console.log] and [console.error] have no effect on the page and are
      left out;
    - the saved presets, the local storage and the preset dialog are
      kept apart from [World], in the record [App]. *)

From Stdlib Require Import ZArith List String Ascii Bool Lia DecimalString.
From Stdlib Require DecimalPos.
Import ListNotations.

Open Scope string_scope.
Open Scope Z_scope.

(** ** JavaScript built-ins used by the controller *)

Module JS.

(** [s.startsWith(p)] *)
Fixpoint startsWith (p s : string) : bool :=
  match p, s with
  | EmptyString, _ => true
  | String _ _, EmptyString => false
  | String a p', String b s' => Ascii.eqb a b && startsWith p' s'
  end.

(** [s.includes(p)] *)
Fixpoint includes (p s : string) : bool :=
  startsWith p s ||
  match s with
  | EmptyString => false
  | String _ s' => includes p s'
  end.

(** [s.split(sep)] for a non-empty separator: [skip] counts the
    characters of a matched separator that are still to be dropped and
    [cur] is the piece being collected. *)
Fixpoint split_go (sep : string) (skip : nat) (cur s : string) : list string :=
  match s with
  | EmptyString => [cur]
  | String c s' =>
      match skip with
      | S k => split_go sep k cur s'
      | O =>
          if startsWith sep s
          then cur :: split_go sep (Nat.pred (String.length sep)) "" s'
          else split_go sep O (cur ++ String c "") s'
      end
  end.

Definition split (sep s : string) : list string := split_go sep O "" s.

(** White space and line terminators of ECMAScript among the code units
    below 256: TAB, LF, VT, FF, CR, SPACE and NBSP. *)
Definition isWhite (c : ascii) : bool :=
  let n := N_of_ascii c in
  ((9 <=? n) && (n <=? 13) || (n =? 32) || (n =? 160))%N.

Fixpoint trimStart (s : string) : string :=
  match s with
  | EmptyString => ""
  | String c s' => if isWhite c then trimStart s' else s
  end.

Fixpoint trimEnd (s : string) : string :=
  match s with
  | EmptyString => ""
  | String c s' =>
      match trimEnd s' with
      | EmptyString => if isWhite c then "" else String c ""
      | t => String c t
      end
  end.

(** [s.trim()] *)
Definition trim (s : string) : string := trimEnd (trimStart s).

(** [n.toString()] for an integer [n] *)
Definition toString (n : Z) : string := NilZero.string_of_int (Z.to_int n).

(** [s.padStart(2, '0')] *)
Definition padStart2 (s : string) : string :=
  match s with
  | EmptyString => "00"
  | String c EmptyString => String "0" (String c "")
  | _ => s
  end.

(** A non-empty string is truthy. *)
Definition truthy (s : string) : bool :=
  match s with EmptyString => false | _ => true end.

(** [new TextEncoder().encode(s)]: UTF-8, one byte for a code unit below
    128 and two bytes for the others below 256. *)
Definition utf8 (c : ascii) : list Byte.byte :=
  let n := N_of_ascii c in
  if (n <? 128)%N then [byte_of_ascii c]
  else [byte_of_ascii (ascii_of_N (192 + n / 64));
        byte_of_ascii (ascii_of_N (128 + n mod 64))].

Fixpoint encode (s : string) : list Byte.byte :=
  match s with
  | EmptyString => []
  | String c s' => utf8 c ++ encode s'
  end.

(** The value of a character as a digit in the given radix. *)
Definition digitVal (radix : Z) (c : ascii) : option Z :=
  let n := Z.of_N (N_of_ascii c) in
  let v := if (48 <=? n) && (n <=? 57) then Some (n - 48)
           else if (97 <=? n) && (n <=? 122) then Some (n - 87)
           else if (65 <=? n) && (n <=? 90) then Some (n - 55)
           else None in
  match v with
  | Some d => if d <? radix then Some d else None
  | None => None
  end.

(** The number written by the longest prefix of [s] made of digits; [acc]
    is the value read so far, [None] while no digit has been read. *)
Fixpoint digits (radix : Z) (acc : option Z) (s : string) : option Z :=
  match s with
  | EmptyString => acc
  | String c s' =>
      match digitVal radix c with
      | Some d =>
          digits radix
            (Some (match acc with Some a => a * radix + d | None => d end)) s'
      | None => acc
      end
  end.

(** [parseInt(s)] without a radix: leading white space is skipped, a sign
    and a [0x] prefix are read, then as many digits as there are; [None]
    stands for [NaN]. *)
Definition parseInt (s : string) : option Z :=
  let s := trimStart s in
  let (sign, s) :=
    match s with
    | String "-" s' => (-1, s')
    | String "+" s' => (1, s')
    | _ => (1, s)
    end in
  let (radix, s) :=
    match s with
    | String "0" (String "x" s') => (16, s')
    | String "0" (String "X" s') => (16, s')
    | _ => (10, s)
    end in
  option_map (Z.mul sign) (digits radix None s).

(** Reads back the bytes written by [encode]; [None] on bytes that are not
    the encoding of code units below 256 (where a [TextDecoder] would put
    replacement characters). *)
Fixpoint readUtf8 (l : list Byte.byte) : option string :=
  match l with
  | [] => Some EmptyString
  | b :: l' =>
      let n := Byte.to_N b in
      if (n <? 128)%N then option_map (String (ascii_of_byte b)) (readUtf8 l')
      else
        match l' with
        | b2 :: l'' =>
            let n2 := Byte.to_N b2 in
            if ((194 <=? n) && (n <=? 195) && (128 <=? n2) && (n2 <=? 191))%N
            then option_map (String (ascii_of_N ((n - 192) * 64 + (n2 - 128))))
                   (readUtf8 l'')
            else None
        | [] => None
        end
  end.

End JS.


(** ** Data model *)

(** A saved preset, as [savePreset] builds it:
    [{ name, mode, intensity, duration }], [duration] in minutes. *)
Record Preset := mkPreset {
  p_name : string;
  p_mode : string;
  p_intensity : Z;
  p_duration : Z
}.

(** The fields of [PulsettoController] set by the constructor.  The three
    UUID constants are fixed strings and play no part in the state. *)
Record Controller := mkController {
  device : option nat;
  server : option nat;
  service : option nat;
  writeCharacteristic : option nat;
  notifyCharacteristic : option nat;
  currentMode : string;
  currentIntensity : Z;
  sessionActive : bool;
  sessionStartTime : option Z;
  timerInterval : option nat;
  presets : list Preset
}.

(** The elements of the page the controller touches.  [deviceName],
    [firmware], [battery], [mode] and [timer] are the [textContent] of the
    elements with these ids; [activeModeBtns] lists the [data-mode] values
    whose buttons carry the class [active]; [connectedUI] stands for the
    connect button showing the connected label (and being disabled) with
    the three cards revealed. *)
Record Page := mkPage {
  deviceName : string;
  firmware : string;
  battery : string;
  mode : string;
  timer : string;
  intensitySlider : Z;
  intensityDisplay : Z;
  startBtnDisabled : bool;
  activeModeBtns : list string;
  connectedUI : bool
}.

(** What a timer runs when it fires: the three callbacks the source hands
    to [setInterval] and [setTimeout] (the [setTimeout] inside [delay] is
    modelled by [delay] itself). *)
Inductive Callback :=
| CbUpdateTimer    (* () => this.updateTimer()            , line 178 *)
| CbPoll           (* the status poll of startStatusPolling, line 213 *)
| CbStopSession.   (* () => { this.stopSession(); }       , line 279 *)

Inductive TimerKind := Interval | Timeout.

Record Timer := mkTimer {
  t_id : nat;
  t_kind : TimerKind;
  t_callback : Callback;
  t_due : Z;
  t_period : Z
}.

(** The browser around the controller: clock, pending timers, the calls
    made to [writeValue] (attempted writes, oldest first), the messages
    shown by [alert], the rejections of promises nobody awaited, the
    number of notification listeners, and how the link answers the [n]-th
    call of [writeValue] ([Some msg]: the write is rejected). *)
Record Browser := mkBrowser {
  now : Z;
  timers : list Timer;
  nextTimerId : nat;
  writes : list (list Byte.byte);
  alerts : list string;
  unhandled : list string;
  listeners : nat;
  linkRejects : nat -> option string
}.

Record World := mkWorld {
  ctl : Controller;
  page : Page;
  env : Browser
}.

(** Field updates. *)
Definition with_ctl (f : Controller -> Controller) (w : World) : World :=
  mkWorld (f (ctl w)) (page w) (env w).
Definition with_page (f : Page -> Page) (w : World) : World :=
  mkWorld (ctl w) (f (page w)) (env w).
Definition with_env (f : Browser -> Browser) (w : World) : World :=
  mkWorld (ctl w) (page w) (f (env w)).

Definition set_device v (c : Controller) :=
  mkController v (server c) (service c) (writeCharacteristic c)
    (notifyCharacteristic c) (currentMode c) (currentIntensity c)
    (sessionActive c) (sessionStartTime c) (timerInterval c) (presets c).
Definition set_server v (c : Controller) :=
  mkController (device c) v (service c) (writeCharacteristic c)
    (notifyCharacteristic c) (currentMode c) (currentIntensity c)
    (sessionActive c) (sessionStartTime c) (timerInterval c) (presets c).
Definition set_service v (c : Controller) :=
  mkController (device c) (server c) v (writeCharacteristic c)
    (notifyCharacteristic c) (currentMode c) (currentIntensity c)
    (sessionActive c) (sessionStartTime c) (timerInterval c) (presets c).
Definition set_writeCharacteristic v (c : Controller) :=
  mkController (device c) (server c) (service c) v
    (notifyCharacteristic c) (currentMode c) (currentIntensity c)
    (sessionActive c) (sessionStartTime c) (timerInterval c) (presets c).
Definition set_notifyCharacteristic v (c : Controller) :=
  mkController (device c) (server c) (service c) (writeCharacteristic c)
    v (currentMode c) (currentIntensity c)
    (sessionActive c) (sessionStartTime c) (timerInterval c) (presets c).
Definition set_currentMode v (c : Controller) :=
  mkController (device c) (server c) (service c) (writeCharacteristic c)
    (notifyCharacteristic c) v (currentIntensity c)
    (sessionActive c) (sessionStartTime c) (timerInterval c) (presets c).
Definition set_currentIntensity v (c : Controller) :=
  mkController (device c) (server c) (service c) (writeCharacteristic c)
    (notifyCharacteristic c) (currentMode c) v
    (sessionActive c) (sessionStartTime c) (timerInterval c) (presets c).
Definition set_sessionActive v (c : Controller) :=
  mkController (device c) (server c) (service c) (writeCharacteristic c)
    (notifyCharacteristic c) (currentMode c) (currentIntensity c)
    v (sessionStartTime c) (timerInterval c) (presets c).
Definition set_sessionStartTime v (c : Controller) :=
  mkController (device c) (server c) (service c) (writeCharacteristic c)
    (notifyCharacteristic c) (currentMode c) (currentIntensity c)
    (sessionActive c) v (timerInterval c) (presets c).
Definition set_timerInterval v (c : Controller) :=
  mkController (device c) (server c) (service c) (writeCharacteristic c)
    (notifyCharacteristic c) (currentMode c) (currentIntensity c)
    (sessionActive c) (sessionStartTime c) v (presets c).

Definition set_deviceName v (p : Page) :=
  mkPage v (firmware p) (battery p) (mode p) (timer p) (intensitySlider p)
    (intensityDisplay p) (startBtnDisabled p) (activeModeBtns p) (connectedUI p).
Definition set_firmware v (p : Page) :=
  mkPage (deviceName p) v (battery p) (mode p) (timer p) (intensitySlider p)
    (intensityDisplay p) (startBtnDisabled p) (activeModeBtns p) (connectedUI p).
Definition set_battery v (p : Page) :=
  mkPage (deviceName p) (firmware p) v (mode p) (timer p) (intensitySlider p)
    (intensityDisplay p) (startBtnDisabled p) (activeModeBtns p) (connectedUI p).
Definition set_mode v (p : Page) :=
  mkPage (deviceName p) (firmware p) (battery p) v (timer p) (intensitySlider p)
    (intensityDisplay p) (startBtnDisabled p) (activeModeBtns p) (connectedUI p).
Definition set_timer v (p : Page) :=
  mkPage (deviceName p) (firmware p) (battery p) (mode p) v (intensitySlider p)
    (intensityDisplay p) (startBtnDisabled p) (activeModeBtns p) (connectedUI p).
Definition set_intensitySlider v (p : Page) :=
  mkPage (deviceName p) (firmware p) (battery p) (mode p) (timer p) v
    (intensityDisplay p) (startBtnDisabled p) (activeModeBtns p) (connectedUI p).
Definition set_intensityDisplay v (p : Page) :=
  mkPage (deviceName p) (firmware p) (battery p) (mode p) (timer p)
    (intensitySlider p) v (startBtnDisabled p) (activeModeBtns p) (connectedUI p).
Definition set_startBtnDisabled v (p : Page) :=
  mkPage (deviceName p) (firmware p) (battery p) (mode p) (timer p)
    (intensitySlider p) (intensityDisplay p) v (activeModeBtns p) (connectedUI p).
Definition set_activeModeBtns v (p : Page) :=
  mkPage (deviceName p) (firmware p) (battery p) (mode p) (timer p)
    (intensitySlider p) (intensityDisplay p) (startBtnDisabled p) v (connectedUI p).
Definition set_connectedUI v (p : Page) :=
  mkPage (deviceName p) (firmware p) (battery p) (mode p) (timer p)
    (intensitySlider p) (intensityDisplay p) (startBtnDisabled p)
    (activeModeBtns p) v.

Definition set_now v (b : Browser) :=
  mkBrowser v (timers b) (nextTimerId b) (writes b) (alerts b) (unhandled b)
    (listeners b) (linkRejects b).
Definition set_timers v (b : Browser) :=
  mkBrowser (now b) v (nextTimerId b) (writes b) (alerts b) (unhandled b)
    (listeners b) (linkRejects b).
Definition set_nextTimerId v (b : Browser) :=
  mkBrowser (now b) (timers b) v (writes b) (alerts b) (unhandled b)
    (listeners b) (linkRejects b).
Definition set_writes v (b : Browser) :=
  mkBrowser (now b) (timers b) (nextTimerId b) v (alerts b) (unhandled b)
    (listeners b) (linkRejects b).
Definition set_alerts v (b : Browser) :=
  mkBrowser (now b) (timers b) (nextTimerId b) (writes b) v (unhandled b)
    (listeners b) (linkRejects b).
Definition set_unhandled v (b : Browser) :=
  mkBrowser (now b) (timers b) (nextTimerId b) (writes b) (alerts b) v
    (listeners b) (linkRejects b).
Definition set_listeners v (b : Browser) :=
  mkBrowser (now b) (timers b) (nextTimerId b) (writes b) (alerts b)
    (unhandled b) v (linkRejects b).

(** ** Promises and browser services *)

(** The result of an [async] method.  A rejected promise still carries the
    state: JavaScript does not undo the assignments made before the
    failing [await]. *)
Inductive Promise :=
| Fulfilled (w : World)
| Rejected (err : string) (w : World).

Definition state_of (p : Promise) : World :=
  match p with Fulfilled w | Rejected _ w => w end.

Definition fulfilled (p : Promise) : bool :=
  match p with Fulfilled _ => true | Rejected _ _ => false end.


Definition andThen (p : Promise) (k : World -> Promise) : Promise :=
  match p with
  | Fulfilled w => k w
  | Rejected e w => Rejected e w
  end.

Notation "'await' x '<-' p ';;' k" := (andThen p (fun x => k))
  (at level 10, x name, p at level 100, k at level 200).

(** A call whose promise is dropped, as in [() => this.stopSession()]: the
    caller goes on; a rejection ends up as an unhandled rejection. *)
Definition detach (p : Promise) : World :=
  match p with
  | Fulfilled w => w
  | Rejected e w => with_env (fun b => set_unhandled (unhandled b ++ [e]) b) w
  end.

Definition LF : string := String (ascii_of_nat 10) "".

Definition alert (msg : string) (w : World) : World :=
  with_env (fun b => set_alerts (alerts b ++ [msg]) b) w.

Definition setTimer (k : TimerKind) (cb : Callback) (ms : Z) (w : World)
  : nat * World :=
  let id := nextTimerId (env w) in
  (id, with_env (fun b =>
         set_nextTimerId (S id)
           (set_timers
              (timers b ++ [mkTimer id k cb (now b + Z.max 0 ms) (Z.max 0 ms)]) b))
         w).

Definition setInterval := setTimer Interval.
Definition setTimeout := setTimer Timeout.

Definition clearInterval (id : nat) (w : World) : World :=
  with_env (fun b =>
    set_timers (filter (fun t => negb (Nat.eqb (t_id t) id)) (timers b)) b) w.

(** [writeCharacteristic.writeValue(bytes)]: the call is recorded and the
    link decides whether it is accepted. *)
Definition writeValue (bytes : list Byte.byte) (w : World) : Promise :=
  let n := List.length (writes (env w)) in
  let w' := with_env (fun b => set_writes (writes b ++ [bytes]) b) w in
  match linkRejects (env w) n with
  | Some msg => Rejected msg w'
  | None => Fulfilled w'
  end.

(** ** The methods of [PulsettoController] *)

(** [delay(ms)], lines 309-311 *)
Definition delay (ms : Z) (w : World) : Promise :=
  Fulfilled (with_env (fun b => set_now (now b + Z.max 0 ms) b) w).

(** [sendCommand(cmd)], lines 119-128 *)
Definition sendCommand (cmd : string) (w : World) : Promise :=
  match writeCharacteristic (ctl w) with
  | None => Fulfilled w
  | Some _ =>
      let data := cmd ++ LF in
      let bytes := JS.encode data in
      writeValue bytes w
  end.

(** The conditional expression of line 145. *)
Definition modeText (mode : string) : string :=
  if String.eqb mode "0" then "OFF"
  else if String.eqb mode "A" then "LEFT"
  else if String.eqb mode "C" then "RIGHT"
  else if String.eqb mode "D" then "BOTH"
  else mode.

(** [handleNotification(event)], lines 130-148; [value] is the decoded
    text of [event.target.value].  [split(..)[1]] is read with a default
    that is never used: see [split_second]. *)
Definition handleNotification (value : string) (w : World) : World :=
  if JS.startsWith "Pulsetto_" value then
    with_page (set_deviceName (JS.trim value)) w
  else if JS.startsWith "fw:" value then
    with_page (set_firmware (JS.trim value)) w
  else if JS.includes "Batt:" value then
    let voltage := JS.trim (nth 1 (JS.split "Batt:" value) "") in
    with_page (set_battery (voltage ++ "V")) w
  else if JS.includes "mode:" value then
    let mode := JS.trim (nth 1 (JS.split "mode:" value) "") in
    with_page (set_mode (modeText mode)) w
  else w.

(** [setMode(mode)], lines 150-153 *)
Definition setMode (mode : string) (w : World) : Promise :=
  let w := with_ctl (set_currentMode mode) w in
  sendCommand mode w.

(** [setIntensity(level)], lines 155-158 *)
Definition setIntensity (level : Z) (w : World) : Promise :=
  let w := with_ctl (set_currentIntensity level) w in
  sendCommand (JS.toString level) w.

(** [startSession()], lines 160-181 *)
Definition startSession (w : World) : Promise :=
  if negb (JS.truthy (currentMode (ctl w))) then
    Fulfilled (alert "Please select a mode first" w)
  else
    let w := with_ctl (set_sessionActive true) w in
    let w := with_ctl (set_sessionStartTime (Some (now (env w)))) w in
    await w <- setMode (currentMode (ctl w)) w ;;
    await w <- delay 100 w ;;
    let intensity := intensitySlider (page w) in
    await w <- (if 0 <? intensity then setIntensity intensity w
                else Fulfilled w) ;;
    let (id, w) := setInterval CbUpdateTimer 1000 w in
    let w := with_ctl (set_timerInterval (Some id)) w in
    Fulfilled (with_page (set_startBtnDisabled true) w).

(** [stopSession()], lines 183-199.  A timer id is truthy unless it is 0. *)
Definition stopSession (w : World) : Promise :=
  let w := with_ctl (set_sessionActive false) w in
  let w :=
    match timerInterval (ctl w) with
    | Some id =>
        if Nat.eqb id 0 then w
        else with_ctl (set_timerInterval None) (clearInterval id w)
    | None => w
    end in
  await w <- sendCommand "-" w ;;
  let w := with_page (set_timer "00:00") w in
  let w := with_page (set_startBtnDisabled false) w in
  Fulfilled (with_page (set_activeModeBtns []) w).

(** [updateTimer()], lines 201-210.  [sessionStartTime] is falsy when it
    is [null] or 0; [Math.floor] of a quotient of integers is [Z.div] and
    [%] is the remainder with the sign of the dividend. *)
Definition updateTimer (w : World) : World :=
  match sessionStartTime (ctl w) with
  | None => w
  | Some t0 =>
      if t0 =? 0 then w
      else
        let elapsed := (now (env w) - t0) / 1000 in
        let minutes := elapsed / 60 in
        let seconds := Z.rem elapsed 60 in
        with_page (set_timer (JS.padStart2 (JS.toString minutes) ++ ":" ++
                              JS.padStart2 (JS.toString seconds))) w
  end.

(** [startStatusPolling()], lines 212-218 *)
Definition startStatusPolling (w : World) : World :=
  snd (setInterval CbPoll 3000 w).

(** The body of the polling callback, lines 213-217. *)
Definition pollTick (w : World) : Promise :=
  match writeCharacteristic (ctl w) with
  | Some _ => sendCommand "Q" w
  | None => Fulfilled w
  end.

(** [loadPreset(preset)], lines 264-282 *)
Definition loadPreset (preset : Preset) (w : World) : Promise :=
  let w := with_ctl (set_currentMode (p_mode preset)) w in
  let w := with_page (set_activeModeBtns [p_mode preset]) w in
  let w := with_page (set_intensitySlider (p_intensity preset)) w in
  let w := with_page (set_intensityDisplay (p_intensity preset)) w in
  await w <- startSession w ;;
  Fulfilled (snd (setTimeout CbStopSession (p_duration preset * 60 * 1000) w)).

(** [onConnected()], lines 98-117 *)
Definition onConnected (w : World) : Promise :=
  let w := with_page (set_connectedUI true) w in
  await w <- sendCommand "i" w ;;
  await w <- delay 100 w ;;
  await w <- sendCommand "v" w ;;
  await w <- delay 100 w ;;
  await w <- sendCommand "Q" w ;;
  Fulfilled (startStatusPolling w).

(** ** Connecting *)

(** The answer of the browser or of the device to one awaited call. *)
Inductive Answer (A : Type) :=
| Resolves (a : A)
| Fails (msg : string).
Arguments Resolves {A} a.
Arguments Fails {A} msg.

(** What the six awaited calls of [connect] answer, in the order of the
    source: [requestDevice], [gatt.connect], [getPrimaryService],
    [getCharacteristic(WRITE_UUID)], [getCharacteristic(NOTIFY_UUID)] and
    [startNotifications]. *)
Record Link := mkLink {
  requestDevice : Answer nat;
  gattConnect : Answer nat;
  getPrimaryService : Answer nat;
  getWriteCharacteristic : Answer nat;
  getNotifyCharacteristic : Answer nat;
  startNotifications : Answer unit
}.

Definition awaitAnswer {A} (a : Answer A) (w : World)
  (k : A -> World -> Promise) : Promise :=
  match a with
  | Resolves x => k x w
  | Fails msg => Rejected msg w
  end.

(** The [try] block of [connect], lines 69-91.  [onConnected()] is called
    without [await]. *)
Definition connect_try (l : Link) (w : World) : Promise :=
  awaitAnswer (requestDevice l) w (fun d w =>
  let w := with_ctl (set_device (Some d)) w in
  awaitAnswer (gattConnect l) w (fun s w =>
  let w := with_ctl (set_server (Some s)) w in
  awaitAnswer (getPrimaryService l) w (fun s w =>
  let w := with_ctl (set_service (Some s)) w in
  awaitAnswer (getWriteCharacteristic l) w (fun c w =>
  let w := with_ctl (set_writeCharacteristic (Some c)) w in
  awaitAnswer (getNotifyCharacteristic l) w (fun c w =>
  let w := with_ctl (set_notifyCharacteristic (Some c)) w in
  awaitAnswer (startNotifications l) w (fun _ w =>
  let w := with_env (fun b => set_listeners (S (listeners b)) b) w in
  Fulfilled (detach (onConnected w)))))))).

(** [connect()], lines 68-96: the [catch] block turns every rejection of
    the [try] block into one [alert]. *)
Definition connect (l : Link) (w : World) : Promise :=
  match connect_try l w with
  | Fulfilled w' => Fulfilled w'
  | Rejected msg w' => Fulfilled (alert ("Failed to connect: " ++ msg) w')
  end.

(** ** Construction *)

(** [loadPresets()], lines 221-224; [saved] is the parsed content of the
    storage entry, if there is one. *)
Definition loadPresets (saved : option (list Preset)) : list Preset :=
  match saved with
  | Some l => l
  | None => []
  end.

Definition addActive (m : string) (l : list string) : list string :=
  if existsb (String.eqb m) l then l else m :: l.

(** The part of [initUI()] (lines 24-66) that writes to the page; the
    event handlers it installs are the constructors of [Event] below. *)
Definition initUI (w : World) : World :=
  let w := with_page (fun p =>
             set_activeModeBtns (addActive (currentMode (ctl w)) (activeModeBtns p)) p) w in
  let w := with_page (set_intensitySlider (currentIntensity (ctl w))) w in
  with_page (set_intensityDisplay (currentIntensity (ctl w))) w.

(** A browser in which nothing has happened yet: the clock reads [t0] and
    timer ids start at 1. *)
Definition freshBrowser (t0 : Z) (link : nat -> option string) : Browser :=
  mkBrowser t0 [] 1 [] [] [] 0 link.

(** [new PulsettoController()], lines 3-22, on the page [html]. *)
Definition constructor (saved : option (list Preset)) (html : Page)
  (t0 : Z) (link : nat -> option string) : World :=
  initUI
    (mkWorld
       (mkController None None None None None "D" 5 false None None
          (loadPresets saved))
       html
       (freshBrowser t0 link)).

(** ** The event loop *)

Definition run_callback (cb : Callback) (w : World) : World :=
  match cb with
  | CbUpdateTimer => updateTimer w
  | CbPoll => detach (pollTick w)
  | CbStopSession => detach (stopSession w)
  end.

(** No pending timer is due before [t]. *)
Definition earliest (t : Z) (w : World) : bool :=
  forallb (fun u => t <=? t_due u) (timers (env w)).

Definition reschedule (t : Timer) (at_ : Z) (l : list Timer) : list Timer :=
  match t_kind t with
  | Timeout => filter (fun u => negb (Nat.eqb (t_id u) (t_id t))) l
  | Interval =>
      map (fun u => if Nat.eqb (t_id u) (t_id t)
                    then mkTimer (t_id u) (t_kind u) (t_callback u)
                           (at_ + t_period u) (t_period u)
                    else u) l
  end.

(** The timer [id] fires: it must be pending with no other timer due
    earlier; the clock is then at its due time or later. *)
Definition fire (id : nat) (w : World) : World :=
  match find (fun t => Nat.eqb (t_id t) id) (timers (env w)) with
  | Some t =>
      if earliest (t_due t) w then
        let at_ := Z.max (now (env w)) (t_due t) in
        let w := with_env (fun b =>
                   set_now at_ (set_timers (reschedule t at_ (timers b)) b)) w in
        run_callback (t_callback t) w
      else w
  | None => w
  end.

(** Time passes without any timer firing: only up to the next due time. *)
Definition wait (ms : Z) (w : World) : World :=
  if (0 <=? ms) && earliest (now (env w) + ms) w
  then with_env (fun b => set_now (now b + ms) b) w
  else w.

(** What can happen to a controller: the handlers installed by [initUI]
    and by [connect], direct calls of the public methods, and the event
    loop. *)
Inductive Event :=
| EvConnect (l : Link)           (* click on connectBtn, line 26 *)
| EvModeClick (m : string)       (* click on a mode button, lines 33-38 *)
| EvSliderInput (v : Z)          (* input on the slider, lines 48-54 *)
| EvStart                        (* click on startBtn, line 57 *)
| EvStop                         (* click on stopBtn, line 58 *)
| EvLoadPreset (p : Preset)      (* Load button of a preset, line 302 *)
| EvSetMode (m : string)         (* controller.setMode(m) *)
| EvSetIntensity (n : Z)         (* controller.setIntensity(n) *)
| EvNotify (value : string)      (* characteristicvaluechanged, line 88 *)
| EvFire (id : nat)              (* a timer fires *)
| EvWait (ms : Z).               (* time passes *)

Definition handle (e : Event) (w : World) : World :=
  match e with
  | EvConnect l => detach (connect l w)
  | EvModeClick m =>
      let w := detach (setMode m w) in
      with_page (set_activeModeBtns [m]) w
  | EvSliderInput v =>
      let w := with_page (set_intensitySlider v) w in
      let w := with_page (set_intensityDisplay v) w in
      if sessionActive (ctl w) then detach (setIntensity v w) else w
  | EvStart => detach (startSession w)
  | EvStop => detach (stopSession w)
  | EvLoadPreset p => detach (loadPreset p w)
  | EvSetMode m => detach (setMode m w)
  | EvSetIntensity n => detach (setIntensity n w)
  | EvNotify value => Nat.iter (listeners (env w)) (handleNotification value) w
  | EvFire id => fire id w
  | EvWait ms => wait ms w
  end.

Definition run (es : list Event) (w : World) : World :=
  fold_left (fun w e => handle e w) es w.

(** The states a controller can be in. *)
Inductive reachable : World -> Prop :=
| reach_new saved html t0 link :
    reachable (constructor saved html t0 link)
| reach_step e w :
    reachable w -> reachable (handle e w).

(** ** Reading the state *)

(** The controller keeps no connection-state field: [sendCommand] and the
    status poll test [writeCharacteristic], which is what decides whether
    a command reaches the link. *)
Definition connected (w : World) : bool :=
  match writeCharacteristic (ctl w) with
  | Some _ => true
  | None => false
  end.

Inductive State := Idle | Ready | SessionActive.

Definition stateOf (w : World) : State :=
  if connected w then
    if sessionActive (ctl w) then SessionActive else Ready
  else Idle.

(** The last values reported by the device, as the page shows them. *)
Record DeviceStatus := mkStatus {
  st_deviceName : string;
  st_firmwareVersion : string;
  st_batteryVoltage : string;
  st_reportedMode : string
}.

Definition deviceStatus (w : World) : DeviceStatus :=
  mkStatus (deviceName (page w)) (firmware (page w)) (battery (page w))
    (mode (page w)).

(** The branch [handleNotification] takes on a line, with the text it
    computes in that branch. *)
Inductive Decoded :=
| DeviceNameEvent (v : string)
| FirmwareEvent (v : string)
| BatteryEvent (voltage : string)
| ModeEvent (label : string)
| UnrecognizedEvent (line : string).

Definition decode (value : string) : Decoded :=
  if JS.startsWith "Pulsetto_" value then DeviceNameEvent (JS.trim value)
  else if JS.startsWith "fw:" value then FirmwareEvent (JS.trim value)
  else if JS.includes "Batt:" value then
    BatteryEvent (JS.trim (nth 1 (JS.split "Batt:" value) ""))
  else if JS.includes "mode:" value then
    ModeEvent (modeText (JS.trim (nth 1 (JS.split "mode:" value) "")))
  else UnrecognizedEvent value.

(** The assignment each branch makes. *)
Definition dispatch (d : Decoded) (w : World) : World :=
  match d with
  | DeviceNameEvent v => with_page (set_deviceName v) w
  | FirmwareEvent v => with_page (set_firmware v) w
  | BatteryEvent voltage => with_page (set_battery (voltage ++ "V")) w
  | ModeEvent label => with_page (set_mode label) w
  | UnrecognizedEvent _ => w
  end.

(** A line contains a piece of text. *)
Definition contains (p s : string) : Prop :=
  exists a b, s = a ++ p ++ b.

(** ** Sample worlds *)

(** A page on which nothing is shown yet. *)
Definition blankPage : Page := mkPage "" "" "" "" "00:00" 0 0 false [] false.

(** A link on which every step of [connect] succeeds. *)
Definition okLink : Link :=
  mkLink (Resolves 1%nat) (Resolves 2%nat) (Resolves 3%nat) (Resolves 4%nat)
    (Resolves 5%nat) (Resolves tt).

(** A link on which no device is found. *)
Definition noDeviceLink : Link :=
  mkLink (Fails "User cancelled") (Resolves 2%nat) (Resolves 3%nat)
    (Resolves 4%nat) (Resolves 5%nat) (Resolves tt).

(** A link on which only the subscription to notifications fails. *)
Definition noNotifyLink : Link :=
  mkLink (Resolves 1%nat) (Resolves 2%nat) (Resolves 3%nat) (Resolves 4%nat)
    (Resolves 5%nat) (Fails "Notifications not supported").

(** A new controller at clock 0 on a link that accepts every write. *)
Definition world0 : World := constructor None blankPage 0 (fun _ => None).

(** The same controller once [connect] has succeeded. *)
Definition worldReady : World := run [EvConnect okLink] world0.

(** A session running on [worldReady]. *)
Definition worldActive : World := run [EvConnect okLink; EvStart] world0.


(** A new controller on which a session was started and stopped. *)
Definition worldStopped : World := run [EvStart; EvStop] world0.


(** The preset of the spec's example. *)
Definition calm : Preset := mkPreset "Calm" "A" 6 10.

(** The preset [calm] loaded on [worldReady] and stopped by hand at once:
    the auto-stop timer is still to fire. *)
Definition worldStoppedEarly : World :=
  run [EvConnect okLink; EvLoadPreset calm; EvStop] world0.

(** A preset with intensity 0. *)
Definition rest : Preset := mkPreset "Rest" "A" 0 10.

(** ** Notions used in the statements *)

(** A line starts with a piece of text. *)
Definition hasPrefix (p s : string) : Prop := exists b, s = p ++ b.

(** The link accepts every write. *)
Definition linkAccepts (w : World) : Prop :=
  forall n, linkRejects (env w) n = None.

(** The half of the spec's invariant that the code keeps: an active
    session has a start time. *)
Definition sessionOk (w : World) : Prop :=
  sessionActive (ctl w) = true -> sessionStartTime (ctl w) <> None.

(** [w'] has the session fields of [w]. *)
Definition sameSession (w w' : World) : Prop :=
  sessionActive (ctl w') = sessionActive (ctl w) /\
  sessionStartTime (ctl w') = sessionStartTime (ctl w).

(** The awaited call of [connect] that fails. *)
Inductive Stage :=
| AtDiscovery
| AtGattConnect
| AtService
| AtWriteCharacteristic
| AtNotifyCharacteristic
| AtSubscription.

(** The first call of [connect] that the link lets fail, with its
    message. *)
Definition firstFailure (l : Link) : option (Stage * string) :=
  match requestDevice l with
  | Fails m => Some (AtDiscovery, m)
  | Resolves _ =>
  match gattConnect l with
  | Fails m => Some (AtGattConnect, m)
  | Resolves _ =>
  match getPrimaryService l with
  | Fails m => Some (AtService, m)
  | Resolves _ =>
  match getWriteCharacteristic l with
  | Fails m => Some (AtWriteCharacteristic, m)
  | Resolves _ =>
  match getNotifyCharacteristic l with
  | Fails m => Some (AtNotifyCharacteristic, m)
  | Resolves _ =>
  match startNotifications l with
  | Fails m => Some (AtSubscription, m)
  | Resolves _ => None
  end end end end end end.

(** The failure comes before [writeCharacteristic] is assigned. *)
Definition beforeWriteHandle (s : Stage) : bool :=
  match s with
  | AtDiscovery | AtGattConnect | AtService | AtWriteCharacteristic => true
  | AtNotifyCharacteristic | AtSubscription => false
  end.

(** ** Runs of the event loop *)







(** The pending timer that is due first. *)
Fixpoint minTimer (l : list Timer) : option Timer :=
  match l with
  | [] => None
  | t :: l' =>
      match minTimer l' with
      | Some m => if t_due t <=? t_due m then Some t else Some m
      | None => Some t
      end
  end.

(** The event loop until the clock reads [T]: the timers due before [T]
    fire in the order of their due times, then time passes up to [T]. *)
Fixpoint advance (fuel : nat) (T : Z) (w : World) : World :=
  match fuel with
  | O => w
  | S fuel' =>
      match minTimer (timers (env w)) with
      | Some m =>
          if t_due m <? T then advance fuel' T (fire (t_id m) w)
          else wait (T - now (env w)) w
      | None => wait (T - now (env w)) w
      end
  end.



(** ** Saved presets and the preset dialog *)

Definition set_presets v (c : Controller) :=
  mkController (device c) (server c) (service c) (writeCharacteristic c)
    (notifyCharacteristic c) (currentMode c) (currentIntensity c)
    (sessionActive c) (sessionStartTime c) (timerInterval c) v.

(** The [value] of the four inputs of the preset dialog. *)
Record Form := mkForm {
  presetName : string;
  presetMode : string;
  presetIntensity : string;
  presetDuration : string
}.

(** What one item of the preset list shows: the name, the side, the
    intensity, the minutes, and the index its Load and Delete buttons
    pass on.  The markup around these values is left out. *)
Record Row := mkRow {
  row_name : string;
  row_label : string;
  row_intensity : Z;
  row_duration : Z;
  row_index : nat
}.

(** The content of the element [presetsList]: the notice that no preset
    is saved, or one item per preset. *)
Inductive PresetsList :=
| NoPresetsSaved
| PresetRows (rows : list Row).

(** The controller together with what the preset methods use besides:
    the entry [pulsetto_presets] of the local storage ([None] when it is
    absent, else the list its JSON text stands for), the preset list on
    the page, whether the dialog is hidden, and the inputs of the
    dialog. *)
Record App := mkApp {
  world : World;
  storage : option (list Preset);
  presetsList : PresetsList;
  modalHidden : bool;
  form : Form
}.

Definition with_world (f : World -> World) (a : App) : App :=
  mkApp (f (world a)) (storage a) (presetsList a) (modalHidden a) (form a).

(** [savePresetsToStorage()], lines 226-228 *)
Definition savePresetsToStorage (a : App) : App :=
  mkApp (world a) (Some (presets (ctl (world a)))) (presetsList a)
    (modalHidden a) (form a).


(** [hidePresetModal()], lines 234-237 *)
Definition hidePresetModal (a : App) : App :=
  mkApp (world a) (storage a) (presetsList a) true
    (mkForm "" (presetMode (form a)) (presetIntensity (form a))
       (presetDuration (form a))).

(** The conditional expression of line 296. *)
Definition presetLabel (mode : string) : string :=
  if String.eqb mode "A" then "LEFT"
  else if String.eqb mode "C" then "RIGHT"
  else "BOTH".

(** The items for the presets [l], the first of which has index [index]. *)
Fixpoint rowsFrom (index : nat) (l : list Preset) : list Row :=
  match l with
  | [] => []
  | p :: l' =>
      mkRow (p_name p) (presetLabel (p_mode p)) (p_intensity p)
        (p_duration p) index :: rowsFrom (S index) l'
  end.

(** What [renderPresets] shows for a list of presets. *)
Definition rendered (l : list Preset) : PresetsList :=
  match l with
  | [] => NoPresetsSaved
  | _ => PresetRows (rowsFrom 0 l)
  end.

(** [renderPresets()], lines 284-307 *)
Definition renderPresets (a : App) : App :=
  mkApp (world a) (storage a) (rendered (presets (ctl (world a))))
    (modalHidden a) (form a).

(** [savePreset()], lines 239-254.  The result is [None] when the name is
    given and [parseInt] returns [NaN] for the intensity or the duration:
    the preset pushed then holds [NaN], which [Preset] cannot hold. *)
Definition savePreset (a : App) : option App :=
  let name := JS.trim (presetName (form a)) in
  let mode := presetMode (form a) in
  let intensity := JS.parseInt (presetIntensity (form a)) in
  let duration := JS.parseInt (presetDuration (form a)) in
  if negb (JS.truthy name) then
    Some (with_world (alert "Please enter a preset name") a)
  else
    match intensity, duration with
    | Some intensity, Some duration =>
        let a := with_world (with_ctl (fun c =>
                   set_presets
                     (presets c ++ [mkPreset name mode intensity duration]) c)) a in
        let a := savePresetsToStorage a in
        let a := renderPresets a in
        Some (hidePresetModal a)
    | _, _ => None
    end.

(** [l.splice(index, 1)] for an index that is a natural number. *)
Definition splice1 {A} (index : nat) (l : list A) : list A :=
  firstn index l ++ skipn (S index) l.

(** [deletePreset(index)], lines 256-262; [confirmed] is the answer to
    the [confirm] dialog. *)
Definition deletePreset (index : nat) (confirmed : bool) (a : App) : App :=
  if confirmed then
    let a := with_world (with_ctl (fun c =>
               set_presets (splice1 index (presets c)) c)) a in
    let a := savePresetsToStorage a in
    renderPresets a
  else a.






(** The state [stopSession] leaves when the write of the end command goes
    through or there is no link to write to. *)
Definition afterStop (w : World) : World :=
  let cleared :=
    match timerInterval (ctl w) with
    | Some id => negb (Nat.eqb id 0)
    | None => false
    end in
  mkWorld
    (set_timerInterval
       (if cleared then None else timerInterval (ctl w))
       (set_sessionActive false (ctl w)))
    (set_activeModeBtns []
       (set_startBtnDisabled false (set_timer "00:00" (page w))))
    (set_writes
       (writes (env w) ++ (if connected w then [JS.encode ("-" ++ LF)] else []))
       (set_timers
          (match timerInterval (ctl w) with
           | Some id =>
               if Nat.eqb id 0 then timers (env w)
               else filter (fun t => negb (Nat.eqb (t_id t) id)) (timers (env w))
           | None => timers (env w)
           end)
          (env w))).


(** What no event changes: the saved presets and the behaviour of the
    link; and what no event undoes: being connected. *)
Definition keeps (w w' : World) : Prop :=
  presets (ctl w') = presets (ctl w) /\
  linkRejects (env w') = linkRejects (env w) /\
  (connected w = true -> connected w' = true).

(** The timer recorded in [timerInterval], if it is still pending, is an
    elapsed-time ticker; ids start at 1 and pending timers have ids
    already handed out. *)
Definition tickerWf (ti : option nat) (tms : list Timer) (nid : nat) : Prop :=
  (0 < nid)%nat /\
  Forall (fun t => (t_id t < nid)%nat) tms /\
  match ti with
  | Some id =>
      (0 < id < nid)%nat /\
      Forall (fun t => t_id t = id -> t_callback t = CbUpdateTimer) tms
  | None => True
  end.

Definition tickerOk (w : World) : Prop :=
  tickerWf (timerInterval (ctl w)) (timers (env w)) (nextTimerId (env w)).

(** The text holds nothing but white space. *)
Fixpoint allWhite (s : string) : bool :=
  match s with
  | EmptyString => true
  | String c s' => JS.isWhite c && allWhite s'
  end.





(** * Properties *)

(** ** String built-ins *)

Lemma startsWith_app (p s : string) : JS.startsWith p (p ++ s) = true.
Proof.
  induction p as [|c p IH]; simpl.
  - reflexivity.
  - now rewrite Ascii.eqb_refl.
Qed.

Lemma startsWith_inv (p s : string) :
  JS.startsWith p s = true -> exists b, s = p ++ b.
Proof.
  revert s; induction p as [|c p IH]; intros s H; simpl in *.
  - now exists s.
  - destruct s as [|d s]; [discriminate|].
    apply andb_true_iff in H as [Hc Hp].
    apply Ascii.eqb_eq in Hc; subst d.
    destruct (IH _ Hp) as [b ->]. now exists b.
Qed.

Lemma startsWith_includes (p s : string) :
  JS.startsWith p s = true -> JS.includes p s = true.
Proof.
  intros H. destruct s; simpl; rewrite H; reflexivity.
Qed.

Lemma includes_contains (p s : string) :
  JS.includes p s = true <-> contains p s.
Proof.
  split.
  - induction s as [|c s IH]; simpl; intros H.
    + rewrite orb_false_r in H.
      destruct (startsWith_inv _ _ H) as [b Hb].
      exists "", b. exact Hb.
    + apply orb_true_iff in H as [H|H].
      * destruct (startsWith_inv _ _ H) as [b Hb].
        exists "", b. exact Hb.
      * destruct (IH H) as (a & b & ->).
        exists (String c a), b. reflexivity.
  - intros (a & b & ->).
    induction a as [|c a IH]; simpl.
    + apply startsWith_includes, startsWith_app.
    + rewrite IH. apply orb_true_r.
Qed.

Lemma split_go_nonempty sep k cur s : JS.split_go sep k cur s <> [].
Proof.
  revert k cur; induction s as [|c s IH]; intros k cur; simpl.
  - discriminate.
  - destruct k; [|apply IH].
    destruct (JS.startsWith sep (String c s)); [discriminate|apply IH].
Qed.

Lemma split_go_second sep cur s :
  sep <> "" -> JS.includes sep s = true ->
  exists x, nth_error (JS.split_go sep 0 cur s) 1 = Some x.
Proof.
  intros Hsep. revert cur; induction s as [|c s IH]; intros cur H.
  - simpl in H. destruct sep; [contradiction|discriminate].
  - cbn [JS.includes] in H. cbn [JS.split_go].
    destruct (JS.startsWith sep (String c s)) eqn:E.
    + destruct (JS.split_go sep (Nat.pred (String.length sep)) "" s) eqn:G.
      * now apply split_go_nonempty in G.
      * now exists s0.
    + simpl in H. apply IH, H.
Qed.

(** Index 1 of [value.split(sep)] exists whenever [value.includes(sep)]:
    the branches of [handleNotification] never read [undefined]. *)
Lemma split_second sep s :
  sep <> "" -> JS.includes sep s = true ->
  exists x, nth_error (JS.split sep s) 1 = Some x /\
            nth 1 (JS.split sep s) "" = x.
Proof.
  intros Hsep H. destruct (split_go_second sep "" s Hsep H) as [x Hx].
  exists x. split; [exact Hx|]. now apply nth_error_nth.
Qed.

(** [handleNotification] is [decode] followed by [dispatch]. *)
Lemma handleNotification_decode value w :
  handleNotification value w = dispatch (decode value) w.
Proof.
  unfold handleNotification, decode.
  destruct (JS.startsWith "Pulsetto_" value); [reflexivity|].
  destruct (JS.startsWith "fw:" value); [reflexivity|].
  destruct (JS.includes "Batt:" value); [reflexivity|].
  destruct (JS.includes "mode:" value); reflexivity.
Qed.

(** ** The decoder *)

Lemma startsWith_hasPrefix (p s : string) :
  JS.startsWith p s = true <-> hasPrefix p s.
Proof.
  split.
  - apply startsWith_inv.
  - intros [b ->]. apply startsWith_app.
Qed.

Lemma startsWith_false (p s : string) :
  ~ hasPrefix p s -> JS.startsWith p s = false.
Proof.
  intros H. destruct (JS.startsWith p s) eqn:E; [|reflexivity].
  now apply startsWith_hasPrefix in E.
Qed.

(** A line that contains [Batt:] never reaches the [mode:] branch. *)
Lemma decode_battery_not_mode (value : string) :
  contains "Batt:" value -> forall label, decode value <> ModeEvent label.
Proof.
  intros H label. apply includes_contains in H.
  unfold decode. rewrite H.
  destruct (JS.startsWith "Pulsetto_" value); [discriminate|].
  destruct (JS.startsWith "fw:" value); discriminate.
Qed.

(** C8, as the code has it: a line that contains both [Batt:] and [mode:]
    is never handled as a mode report and the mode shown on the page is
    left alone; it is handled as a battery report, and the battery text
    becomes the reported voltage followed by [V], provided it does not
    start with [Pulsetto_] or [fw:], the two rules tested before. *)
Theorem battery_rule_precedes_mode_rule (value : string) (w : World) :
  contains "Batt:" value -> contains "mode:" value ->
  (forall label, decode value <> ModeEvent label) /\
  mode (page (handleNotification value w)) = mode (page w) /\
  (~ hasPrefix "Pulsetto_" value -> ~ hasPrefix "fw:" value ->
   exists voltage,
     nth_error (JS.split "Batt:" value) 1 = Some voltage /\
     decode value = BatteryEvent (JS.trim voltage) /\
     handleNotification value w =
       with_page (set_battery (JS.trim voltage ++ "V")) w).
Proof.
  intros Hb Hm. split; [now apply decode_battery_not_mode|].
  pose proof (proj2 (includes_contains _ _) Hb) as Hinc.
  split.
  - rewrite handleNotification_decode.
    pose proof (decode_battery_not_mode value Hb) as Hn.
    destruct (decode value); try reflexivity.
    now elim (Hn label).
  - intros Hp Hf.
    apply startsWith_false in Hp. apply startsWith_false in Hf.
    destruct (split_second "Batt:" value) as (x & Hx & Hnth);
      [discriminate|exact Hinc|].
    exists x. split; [exact Hx|].
    unfold handleNotification, decode.
    rewrite Hp, Hf, Hinc, Hnth. split; reflexivity.
Qed.

Lemma battery_rule_precedes_mode_rule_witness :
  decode "Batt: 3.91 mode:D" = BatteryEvent "3.91 mode:D" /\
  mode (page (handleNotification "Batt: 3.91 mode:D" world0)) = "".
Proof.
  assert (Hb : contains "Batt:" "Batt: 3.91 mode:D")
    by (exists "", " 3.91 mode:D"; reflexivity).
  assert (Hm : contains "mode:" "Batt: 3.91 mode:D")
    by (exists "Batt: 3.91 ", "D"; reflexivity).
  destruct (battery_rule_precedes_mode_rule "Batt: 3.91 mode:D" world0 Hb Hm)
    as (_ & Hmode & Hbat).
  split; [|exact Hmode].
  destruct Hbat as (v & Hv & Hd & _).
  - intros [b Hb']. discriminate.
  - intros [b Hb']. discriminate.
  - injection Hv as <-. exact Hd.
Defined.

(** C8 as stated fails: a line that contains both [Batt:] and [mode:] but
    starts with [fw:] is handled as a firmware report; the battery text is
    not touched. *)
Lemma battery_rule_counterexample :
  contains "Batt:" "fw:1.2 Batt:3.9 mode:D" /\
  contains "mode:" "fw:1.2 Batt:3.9 mode:D" /\
  decode "fw:1.2 Batt:3.9 mode:D" = FirmwareEvent "fw:1.2 Batt:3.9 mode:D" /\
  ~ (exists v, decode "fw:1.2 Batt:3.9 mode:D" = BatteryEvent v) /\
  battery (page (handleNotification "fw:1.2 Batt:3.9 mode:D" world0)) =
    battery (page world0) /\
  firmware (page (handleNotification "fw:1.2 Batt:3.9 mode:D" world0)) =
    "fw:1.2 Batt:3.9 mode:D".
Proof.
  split; [exists "fw:1.2 ", "3.9 mode:D"; reflexivity|].
  split; [exists "fw:1.2 Batt:3.9 ", "D"; reflexivity|].
  split; [reflexivity|].
  split; [intros [v Hv]; discriminate|].
  split; reflexivity.
Qed.

(** C9: the three sample lines decode to a device name, the mode label
    [BOTH] and the trimmed voltage [3.91]; the page shows them (the
    voltage with the unit appended); the label is [OFF], [LEFT], [RIGHT],
    [BOTH] for [0], [A], [C], [D] and the reported text itself for
    anything else. *)
Theorem decode_samples :
  decode "Pulsetto_A1B2" = DeviceNameEvent "Pulsetto_A1B2" /\
  decode "mode:D" = ModeEvent "BOTH" /\
  decode "Batt: 3.91" = BatteryEvent "3.91" /\
  (forall w, handleNotification "Pulsetto_A1B2" w =
             with_page (set_deviceName "Pulsetto_A1B2") w) /\
  (forall w, handleNotification "mode:D" w = with_page (set_mode "BOTH") w) /\
  (forall w, handleNotification "Batt: 3.91" w =
             with_page (set_battery "3.91V") w) /\
  modeText "0" = "OFF" /\ modeText "A" = "LEFT" /\
  modeText "C" = "RIGHT" /\ modeText "D" = "BOTH" /\
  (forall m, m <> "0" -> m <> "A" -> m <> "C" -> m <> "D" -> modeText m = m).
Proof.
  repeat (split; [reflexivity|]).
  intros m H0 HA HC HD. unfold modeText.
  apply String.eqb_neq in H0, HA, HC, HD.
  now rewrite H0, HA, HC, HD.
Qed.

Lemma decode_samples_witness :
  modeText "B" = "B" /\ decode "mode: B" = ModeEvent "B".
Proof.
  split; [|reflexivity].
  apply (proj2 (proj2 (proj2 (proj2 (proj2 (proj2 (proj2 (proj2 (proj2
           (proj2 decode_samples))))))))) "B"); discriminate.
Defined.

(** ** Sending commands *)

(** Unfolds the methods down to the records. *)
Ltac methods :=
  unfold loadPreset, startSession, stopSession, setMode, setIntensity,
    pollTick, sendCommand, writeValue, delay, andThen, alert, setInterval,
    setTimeout, setTimer, clearInterval, detach, connected, stateOf in *.

Lemma sendCommand_disconnected cmd w :
  writeCharacteristic (ctl w) = None -> sendCommand cmd w = Fulfilled w.
Proof. intros H. unfold sendCommand. now rewrite H. Qed.

Lemma sendCommand_connected cmd w :
  connected w = true ->
  state_of (sendCommand cmd w) =
    with_env (fun b => set_writes (writes b ++ [JS.encode (cmd ++ LF)]) b) w.
Proof.
  unfold connected, sendCommand, writeValue.
  destruct (writeCharacteristic (ctl w)); [|discriminate]. intros _.
  now destruct (linkRejects (env w) _).
Qed.

(** C10: before a connection exists ([writeCharacteristic] still [null])
    [sendCommand] is fulfilled at once and leaves the state as it is, so
    no write is attempted; hence [setMode], [setIntensity], [stopSession]
    and the status poll are fulfilled too and attempt no write. *)
Theorem sendCommand_safe_when_disconnected (cmd : string) (w : World) :
  writeCharacteristic (ctl w) = None ->
  sendCommand cmd w = Fulfilled w /\
  (forall m, setMode m w = Fulfilled (with_ctl (set_currentMode m) w)) /\
  (forall n, setIntensity n w = Fulfilled (with_ctl (set_currentIntensity n) w)) /\
  (exists w', stopSession w = Fulfilled w' /\
              writes (env w') = writes (env w) /\
              unhandled (env w') = unhandled (env w)) /\
  pollTick w = Fulfilled w /\
  run_callback CbPoll w = w.
Proof.
  intros H. split; [now apply sendCommand_disconnected|].
  split; [intros m; unfold setMode; now apply sendCommand_disconnected|].
  split; [intros n; unfold setIntensity; now apply sendCommand_disconnected|].
  split.
  - unfold stopSession. cbn.
    destruct (timerInterval (ctl w)) as [id|]; [destruct (Nat.eqb id 0)|];
      (rewrite sendCommand_disconnected by (cbn; exact H)); cbn;
      eexists; (split; [reflexivity|]); cbn; split; reflexivity.
  - unfold run_callback, pollTick. rewrite H. split; reflexivity.
Qed.

Lemma sendCommand_safe_when_disconnected_witness :
  sendCommand "Q" world0 = Fulfilled world0 /\
  setMode "A" world0 = Fulfilled (with_ctl (set_currentMode "A") world0).
Proof.
  destruct (sendCommand_safe_when_disconnected "Q" world0 eq_refl)
    as (H1 & H2 & _).
  split; [exact H1|exact (H2 "A")].
Defined.

(** C4, as the code has it: [setMode(m)] always sets the local mode to [m]
    at once, before anything is heard from the device and whether or not
    the write succeeds; when connected it attempts exactly one write, of
    [m] followed by a newline (for the mode [A] the two bytes 0x41 0x0a);
    when not connected it attempts no write, is fulfilled and reports
    nothing. *)
Theorem setMode_optimistic (m : string) (w : World) :
  currentMode (ctl (state_of (setMode m w))) = m /\
  JS.encode ("A" ++ LF) = [Byte.x41; Byte.x0a] /\
  alerts (env (state_of (setMode m w))) = alerts (env w) /\
  (connected w = true ->
   writes (env (state_of (setMode m w))) =
     (writes (env w) ++ [JS.encode (m ++ LF)])%list) /\
  (connected w = false ->
   setMode m w = Fulfilled (with_ctl (set_currentMode m) w) /\
   writes (env (state_of (setMode m w))) = writes (env w)).
Proof.
  unfold setMode, connected.
  destruct (writeCharacteristic (ctl w)) as [c|] eqn:Hc.
  - assert (Hcon : connected (with_ctl (set_currentMode m) w) = true)
      by (unfold connected; cbn; now rewrite Hc).
    rewrite (sendCommand_connected m _ Hcon). cbn [state_of].
    repeat split; try reflexivity; discriminate.
  - rewrite sendCommand_disconnected by (cbn; exact Hc). cbn [state_of].
    repeat split; try reflexivity; discriminate.
Qed.

(** C4 as stated fails: on a controller that is not connected [setMode]
    is not a no-op and reports no error; it is fulfilled, changes the
    local mode and raises no alert. *)
Lemma setMode_counterexample :
  connected world0 = false /\
  currentMode (ctl world0) = "D" /\
  (exists w', setMode "A" world0 = Fulfilled w' /\
              currentMode (ctl w') = "A" /\
              alerts (env w') = [] /\
              unhandled (env w') = [] /\
              writes (env w') = []).
Proof.
  split; [reflexivity|]. split; [reflexivity|].
  eexists. split; [reflexivity|]. repeat split; reflexivity.
Qed.

Lemma setMode_optimistic_witness :
  writes (env (state_of (setMode "A" worldReady))) =
    (writes (env worldReady) ++ [JS.encode ("A" ++ LF)])%list /\
  setMode "A" world0 = Fulfilled (with_ctl (set_currentMode "A") world0).
Proof.
  split.
  - apply (setMode_optimistic "A" worldReady). reflexivity.
  - apply (setMode_optimistic "A" world0). reflexivity.
Defined.

(** ** Sessions *)

(** Reduces field updates and projections. *)
Ltac fields :=
  cbv beta iota zeta delta
    [with_ctl with_page with_env state_of
     set_device set_server set_service set_writeCharacteristic
     set_notifyCharacteristic set_currentMode set_currentIntensity
     set_sessionActive set_sessionStartTime set_timerInterval
     set_deviceName set_firmware set_battery set_mode set_timer
     set_intensitySlider set_intensityDisplay set_startBtnDisabled
     set_activeModeBtns set_connectedUI
     set_now set_timers set_nextTimerId set_writes set_alerts set_unhandled
     set_listeners
     ctl page env
     device server service writeCharacteristic notifyCharacteristic
     currentMode currentIntensity sessionActive sessionStartTime
     timerInterval presets
     deviceName firmware battery mode timer intensitySlider intensityDisplay
     startBtnDisabled activeModeBtns connectedUI
     now timers nextTimerId writes alerts unhandled listeners linkRejects
     p_name p_mode p_intensity p_duration
     deviceStatus fst snd negb] in *.

(** Splits a world into its fields. *)
Ltac explode w :=
  destruct w as [[dev srv svc wc nc cm ci sa st ti ps]
                 [dn fw bt md tm sl sd sb am cu]
                 [nw tms nid wr al uh ls lr]];
  methods; fields.

Ltac case_link :=
  repeat match goal with
    | |- context [match ?lr ?n with Some _ => _ | None => _ end] =>
        destruct (lr n); fields
    end.

Lemma startSession_state (w : World) :
  JS.truthy (currentMode (ctl w)) = true ->
  let w' := state_of (startSession w) in
  sessionActive (ctl w') = true /\
  sessionStartTime (ctl w') = Some (now (env w)) /\
  currentMode (ctl w') = currentMode (ctl w) /\
  writeCharacteristic (ctl w') = writeCharacteristic (ctl w) /\
  alerts (env w') = alerts (env w) /\
  deviceStatus w' = deviceStatus w.
Proof.
  explode w. intros ->. fields.
  destruct wc; fields; case_link; try (repeat split; reflexivity);
    destruct (0 <? sl); fields; case_link; repeat split; reflexivity.
Qed.

Lemma startSession_no_mode (w : World) :
  JS.truthy (currentMode (ctl w)) = false ->
  startSession w = Fulfilled (alert "Please select a mode first" w).
Proof. intros H. unfold startSession. now rewrite H. Qed.

Lemma stopSession_state (w : World) :
  let w' := state_of (stopSession w) in
  sessionActive (ctl w') = false /\
  sessionStartTime (ctl w') = sessionStartTime (ctl w) /\
  currentMode (ctl w') = currentMode (ctl w) /\
  currentIntensity (ctl w') = currentIntensity (ctl w) /\
  writeCharacteristic (ctl w') = writeCharacteristic (ctl w) /\
  alerts (env w') = alerts (env w) /\
  now (env w') = now (env w) /\
  deviceStatus w' = deviceStatus w.
Proof.
  explode w.
  destruct ti as [[|id]|]; cbn [Nat.eqb]; fields;
    destruct wc; fields; case_link; repeat split; reflexivity.
Qed.


(** C1, as the code has it: [startSession()] followed at once by
    [stopSession()] leaves the connection as it was (a controller that
    was [Ready] is [Ready] again) and the session inactive, but
    [stopSession] does not clear the start time: it is still the one
    [startSession] has left, which is the time of the call when a mode is
    selected. *)
Theorem start_then_stop (w : World) :
  let w' := state_of (stopSession (state_of (startSession w))) in
  writeCharacteristic (ctl w') = writeCharacteristic (ctl w) /\
  connected w' = connected w /\
  (stateOf w = Ready -> stateOf w' = Ready) /\
  sessionActive (ctl w') = false /\
  sessionStartTime (ctl w') = sessionStartTime (ctl (state_of (startSession w))) /\
  (JS.truthy (currentMode (ctl w)) = true ->
   sessionStartTime (ctl w') = Some (now (env w))).
Proof.
  intros w'.
  destruct (stopSession_state (state_of (startSession w)))
    as (Hsa & Hst' & _ & _ & Hwc' & _).
  fold w' in Hsa, Hst', Hwc'.
  assert (Hwc : writeCharacteristic (ctl (state_of (startSession w))) =
                writeCharacteristic (ctl w)).
  { destruct (JS.truthy (currentMode (ctl w))) eqn:Hm.
    - apply (startSession_state w Hm).
    - now rewrite (startSession_no_mode w Hm). }
  assert (Hc : connected w' = connected w)
    by (unfold connected; now rewrite Hwc', Hwc).
  split; [now rewrite Hwc', Hwc|]. split; [exact Hc|].
  split; [|split; [exact Hsa|split; [exact Hst'|]]].
  - unfold stateOf. rewrite Hc, Hsa.
    destruct (connected w); [reflexivity|].
    intros H; exact H.
  - intros Hm. rewrite Hst'. apply (startSession_state w Hm).
Qed.

Lemma start_then_stop_witness :
  sessionActive
    (ctl (state_of (stopSession (state_of (startSession worldReady))))) = false /\
  sessionStartTime
    (ctl (state_of (stopSession (state_of (startSession worldReady))))) = Some 200.
Proof.
  destruct (start_then_stop worldReady) as (_ & _ & _ & Ha & _ & Ht).
  split; [exact Ha|exact (Ht eq_refl)].
Defined.

(** C1 as stated fails: after start and stop, from [Ready] as well as
    from a running session, the session is inactive and the controller
    is [Ready], but the start time is still set. *)
Lemma start_then_stop_counterexample :
  stateOf worldReady = Ready /\
  stateOf (state_of (stopSession (state_of (startSession worldReady)))) = Ready /\
  sessionActive
    (ctl (state_of (stopSession (state_of (startSession worldReady))))) = false /\
  sessionStartTime
    (ctl (state_of (stopSession (state_of (startSession worldReady))))) <> None /\
  stateOf worldActive = SessionActive /\
  sessionStartTime
    (ctl (state_of (stopSession (state_of (startSession worldActive))))) <> None.
Proof.
  repeat split; try reflexivity; vm_compute; discriminate.
Qed.

Lemma updateTimer_frame (w : World) :
  ctl (updateTimer w) = ctl w /\ env (updateTimer w) = env w /\
  deviceStatus (updateTimer w) = deviceStatus w.
Proof.
  unfold updateTimer.
  destruct (sessionStartTime (ctl w)) as [t0|]; [|repeat split].
  destruct (t0 =? 0); repeat split.
Qed.

Lemma pollTick_frame (w : World) :
  ctl (detach (pollTick w)) = ctl w /\
  deviceStatus (detach (pollTick w)) = deviceStatus w /\
  timers (env (detach (pollTick w))) = timers (env w) /\
  now (env (detach (pollTick w))) = now (env w).
Proof.
  explode w. destruct wc; fields; case_link; repeat split.
Qed.

Lemma detach_stopSession_state (w : World) :
  let w' := detach (stopSession w) in
  sessionActive (ctl w') = false /\
  sessionStartTime (ctl w') = sessionStartTime (ctl w) /\
  deviceStatus w' = deviceStatus w /\
  now (env w') = now (env w).
Proof.
  explode w.
  destruct ti as [[|id]|]; cbn [Nat.eqb]; fields;
    destruct wc; fields; case_link; repeat split; reflexivity.
Qed.









(** ** The session invariant *)

Lemma sameSession_ok w w' : sameSession w w' -> sessionOk w -> sessionOk w'.
Proof. intros [Ha Ht] H. unfold sessionOk. now rewrite Ha, Ht. Qed.

Lemma ctl_with_page f w : ctl (with_page f w) = ctl w.
Proof. reflexivity. Qed.

Lemma detach_ctl p : ctl (detach p) = ctl (state_of p).
Proof. now destruct p. Qed.

Lemma detach_page p : page (detach p) = page (state_of p).
Proof. now destruct p. Qed.

Lemma startSession_ok (w : World) : sessionOk w -> sessionOk (state_of (startSession w)).
Proof.
  intros H. destruct (JS.truthy (currentMode (ctl w))) eqn:Hm.
  - destruct (startSession_state w Hm) as (_ & Ht & _).
    intros _. now rewrite Ht.
  - rewrite (startSession_no_mode w Hm). exact H.
Qed.

Lemma stopSession_ok (w : World) : sessionOk (state_of (stopSession w)).
Proof.
  destruct (stopSession_state w) as (Ha & _).
  intros H. now rewrite Ha in H.
Qed.

Lemma loadPreset_ok p (w : World) : sessionOk w -> sessionOk (state_of (loadPreset p w)).
Proof.
  intros H. unfold loadPreset.
  set (w1 := with_page _ _).
  assert (H1 : sessionOk w1) by exact H.
  apply startSession_ok in H1.
  destruct (startSession w1); exact H1.
Qed.

Lemma setMode_session m w : sameSession w (state_of (setMode m w)).
Proof. explode w. destruct wc; fields; case_link; split; reflexivity. Qed.

Lemma setIntensity_session n w : sameSession w (state_of (setIntensity n w)).
Proof. explode w. destruct wc; fields; case_link; split; reflexivity. Qed.

Lemma onConnected_session w : sameSession w (state_of (onConnected w)).
Proof.
  unfold onConnected, startStatusPolling. explode w.
  destruct wc; fields; case_link; split; reflexivity.
Qed.

Lemma connect_session l w : sameSession w (state_of (connect l w)).
Proof.
  unfold connect, connect_try, awaitAnswer.
  destruct l as [[d|e1] [s|e2] [v|e3] [c|e4] [n|e5] [u|e6]];
    cbn [requestDevice gattConnect getPrimaryService getWriteCharacteristic
         getNotifyCharacteristic startNotifications];
    try (split; reflexivity).
  cbn [state_of]. unfold sameSession. rewrite detach_ctl.
  set (w1 := with_env _ _).
  destruct (onConnected_session w1) as [Ha Ht]. split; [exact Ha|exact Ht].
Qed.

Lemma handleNotification_ctl value w : ctl (handleNotification value w) = ctl w.
Proof.
  rewrite handleNotification_decode. now destruct (decode value).
Qed.

Lemma handleNotification_env value w : env (handleNotification value w) = env w.
Proof.
  rewrite handleNotification_decode. now destruct (decode value).
Qed.

Lemma iter_handleNotification_ctl n value w :
  ctl (Nat.iter n (handleNotification value) w) = ctl w.
Proof.
  induction n as [|n IH]; [reflexivity|].
  cbn [Nat.iter nat_rect]. now rewrite handleNotification_ctl.
Qed.

Lemma run_callback_ok cb w : sessionOk w -> sessionOk (run_callback cb w).
Proof.
  intros H. destruct cb; cbn [run_callback].
  - unfold sessionOk. now rewrite (proj1 (updateTimer_frame w)).
  - unfold sessionOk. now rewrite (proj1 (pollTick_frame w)).
  - intros Ha. now rewrite (proj1 (detach_stopSession_state w)) in Ha.
Qed.

Lemma fire_ok id w : sessionOk w -> sessionOk (fire id w).
Proof.
  intros H. unfold fire.
  destruct (find _ (timers (env w))) as [t|]; [|exact H].
  destruct (earliest (t_due t) w); [|exact H].
  apply run_callback_ok. exact H.
Qed.

Lemma wait_ctl ms w : ctl (wait ms w) = ctl w.
Proof. unfold wait. now destruct (_ && _). Qed.

Lemma handle_ok e w : sessionOk w -> sessionOk (handle e w).
Proof.
  intros H. destruct e; cbn [handle].
  - unfold sessionOk. rewrite detach_ctl.
    apply (sameSession_ok w); [apply connect_session|exact H].
  - unfold sessionOk. rewrite ctl_with_page, detach_ctl.
    apply (sameSession_ok w); [apply setMode_session|exact H].
  - rewrite !ctl_with_page.
    destruct (sessionActive (ctl w)) eqn:Ha;
      [|unfold sessionOk; rewrite !ctl_with_page; now rewrite Ha].
    unfold sessionOk. rewrite detach_ctl.
    apply (sameSession_ok w); [|exact H].
    apply (setIntensity_session v
             (with_page (set_intensityDisplay v)
                (with_page (set_intensitySlider v) w))).
  - unfold sessionOk. rewrite detach_ctl. now apply startSession_ok.
  - unfold sessionOk. rewrite detach_ctl. apply stopSession_ok.
  - unfold sessionOk. rewrite detach_ctl. now apply loadPreset_ok.
  - unfold sessionOk. rewrite detach_ctl.
    apply (sameSession_ok w); [apply setMode_session|exact H].
  - unfold sessionOk. rewrite detach_ctl.
    apply (sameSession_ok w); [apply setIntensity_session|exact H].
  - unfold sessionOk. now rewrite iter_handleNotification_ctl.
  - now apply fire_ok.
  - unfold sessionOk. now rewrite wait_ctl.
Qed.

(** C2, as the code has it: in every state a controller can reach,
    whatever the operations that led there, an active session has a start
    time; the converse is not kept, since [stopSession] leaves the start
    time in place. *)
Theorem active_session_has_start_time (w : World) :
  reachable w -> sessionActive (ctl w) = true -> sessionStartTime (ctl w) <> None.
Proof.
  induction 1 as [saved html t0 link|e w Hr IH].
  - cbn. discriminate.
  - now apply handle_ok.
Qed.

Lemma reachable_run es w : reachable w -> reachable (run es w).
Proof.
  revert w; induction es as [|e es IH]; intros w H; [exact H|].
  apply IH. now apply reach_step.
Qed.

Lemma reachable_world0 : reachable world0.
Proof. apply reach_new. Qed.

Lemma reachable_worldActive : reachable worldActive.
Proof. apply reachable_run, reachable_world0. Qed.

Lemma active_session_has_start_time_witness :
  sessionStartTime (ctl worldActive) <> None.
Proof.
  exact (active_session_has_start_time worldActive reachable_worldActive eq_refl).
Defined.

(** C2 as stated fails: after a start and a stop the session is inactive
    and the start time is still set. *)
Lemma session_invariant_counterexample :
  reachable worldStopped /\
  sessionActive (ctl worldStopped) = false /\
  sessionStartTime (ctl worldStopped) = Some 0 /\
  ~ (sessionStartTime (ctl worldStopped) <> None <->
     sessionActive (ctl worldStopped) = true).
Proof.
  split; [apply reachable_run, reachable_world0|].
  - split; [reflexivity|]. split; [reflexivity|].
    intros [H _]. assert (E : false = true) by (apply H; discriminate).
    discriminate E.
Qed.

(** ** Failing to connect *)

(** C5, as the code has it: whichever awaited call of [connect] fails,
    [connect] raises exactly one alert, with the message of the failure,
    and changes neither the local mode and intensity nor the session, the
    page, the timers or the writes; when the failure comes at discovery,
    at the GATT connection, at the service or at the write
    characteristic, a controller that was [Idle] is still [Idle]. *)
Theorem connect_failure (l : Link) (w : World) (st : Stage) (msg : string) :
  firstFailure l = Some (st, msg) ->
  let w' := state_of (connect l w) in
  fulfilled (connect l w) = true /\
  alerts (env w') =
    (alerts (env w) ++ [("Failed to connect: " ++ msg)%string])%list /\
  unhandled (env w') = unhandled (env w) /\
  currentMode (ctl w') = currentMode (ctl w) /\
  currentIntensity (ctl w') = currentIntensity (ctl w) /\
  sameSession w w' /\
  page w' = page w /\
  writes (env w') = writes (env w) /\
  timers (env w') = timers (env w) /\
  listeners (env w') = listeners (env w) /\
  (beforeWriteHandle st = true ->
   writeCharacteristic (ctl w') = writeCharacteristic (ctl w) /\
   (stateOf w = Idle -> stateOf w' = Idle)).
Proof.
  unfold firstFailure, connect, connect_try, awaitAnswer, sameSession, stateOf,
    connected.
  destruct l as [[d|e1] [s|e2] [v|e3] [c|e4] [n|e5] [u|e6]];
    cbn [requestDevice gattConnect getPrimaryService getWriteCharacteristic
         getNotifyCharacteristic startNotifications];
    intros E; inversion E; subst; clear E;
    cbn [beforeWriteHandle fulfilled]; destruct w as [c0 p0 b0];
    unfold alert; fields;
    repeat split; try reflexivity; try discriminate; intros Hidle; exact Hidle.
Qed.

Lemma connect_failure_witness :
  alerts (env (state_of (connect noDeviceLink world0))) =
    ["Failed to connect: User cancelled"] /\
  stateOf (state_of (connect noDeviceLink world0)) = Idle.
Proof.
  destruct (connect_failure noDeviceLink world0 AtDiscovery "User cancelled"
              eq_refl)
    as (_ & Hal & _ & _ & _ & _ & _ & _ & _ & _ & Hidle).
  split; [exact Hal|].
  exact (proj2 (Hidle eq_refl) eq_refl).
Defined.

(** C5 as stated fails: when the subscription to notifications fails,
    [connect] has already stored the write characteristic; the controller
    raises its alert but is left connected, and a later [setMode] is
    written to the link. *)
Lemma connect_failure_counterexample :
  stateOf world0 = Idle /\
  firstFailure noNotifyLink = Some (AtSubscription, "Notifications not supported") /\
  let w' := state_of (connect noNotifyLink world0) in
  alerts (env w') = ["Failed to connect: Notifications not supported"] /\
  writeCharacteristic (ctl w') = Some 4%nat /\
  stateOf w' = Ready /\
  stateOf w' <> Idle /\
  writes (env (state_of (setMode "A" w'))) = [JS.encode ("A" ++ LF)].
Proof.
  vm_compute. repeat split; try reflexivity; discriminate.
Qed.

(** ** Presets *)


(** *** The auto-stop timer *)




Section AutoStop.

(** The id and the due time of the auto-stop timer. *)
Variables (id : nat) (due : Z).




End AutoStop.

(** *** Well-formed timers *)














Lemma iter_handleNotification_env n value w :
  env (Nat.iter n (handleNotification value) w) = env w.
Proof.
  induction n as [|n IH]; [reflexivity|].
  cbn [Nat.iter nat_rect]. now rewrite handleNotification_env.
Qed.





(** *** Running the event loop up to a given time *)





Section Progress.

(** The time the event loop is run up to. *)
Variable T : Z.










End Progress.






(** The example of the spec, run through the event loop: the preset
    [calm] is loaded at clock 200 and [loadPreset] returns at 300; ten
    minutes later the session is still active and the display reads
    09:59, one millisecond later the auto-stop timer has fired. *)
Example calm_session :
  let w := state_of (loadPreset calm worldReady) in
  currentMode (ctl w) = "A" /\
  currentIntensity (ctl w) = 6 /\
  sessionStartTime (ctl w) = Some 200 /\
  now (env w) = 300 /\
  sessionActive (ctl (advance 1000 600300 w)) = true /\
  timer (page (advance 1000 600300 w)) = "09:59" /\
  now (env (advance 1000 600301 w)) = 600301 /\
  sessionActive (ctl (advance 1000 600301 w)) = false.
Proof. vm_compute. repeat split; reflexivity. Qed.

(** [updateTimer] called 65 seconds after the start of the session (at
    clock 200) makes the display read 01:05. *)
Example elapsed_display :
  timer (page (updateTimer (with_env (set_now 65200) worldActive))) = "01:05".
Proof. vm_compute. reflexivity. Qed.


(** A manual stop does not cancel the auto-stop timer of a preset: it is
    still pending, and when it fires ten minutes later the end command is
    written once more and nothing else changes. *)
Example autostop_after_manual_stop :
  sessionActive (ctl worldStoppedEarly) = false /\
  existsb (fun t => match t_callback t with
                    | CbStopSession => true
                    | _ => false
                    end) (timers (env worldStoppedEarly)) = true /\
  let w := advance 1000 600301 worldStoppedEarly in
  sessionActive (ctl w) = false /\
  deviceStatus w = deviceStatus worldStoppedEarly /\
  alerts (env w) = [] /\
  unhandled (env w) = [] /\
  List.length (filter (fun b => Nat.eqb (List.length b) 2 &&
                                match b with
                                | Byte.x2d :: _ => true
                                | _ => false
                                end) (writes (env w))) = 2%nat.
Proof. vm_compute. repeat split; reflexivity. Qed.

(** * Further properties *)

(** ** The bytes of a command *)

Lemma encode_app (a b : string) :
  JS.encode (a ++ b) = (JS.encode a ++ JS.encode b)%list.
Proof.
  induction a as [|c a IH]; cbn [append JS.encode]; [reflexivity|].
  now rewrite IH, app_assoc.
Qed.

(** Splits a character into its 256 cases. *)
Ltac each_char c :=
  destruct c as [[] [] [] [] [] [] [] []].

(** The newline byte occurs in the bytes of a character only if the
    character is the newline. *)
Lemma utf8_newline (c : ascii) :
  In Byte.x0a (JS.utf8 c) -> c = ascii_of_nat 10.
Proof.
  each_char c; vm_compute; intros H;
    repeat (destruct H as [H|H]; [discriminate H|]);
    first [contradiction | reflexivity].
Qed.

Lemma encode_newline (s : string) :
  In Byte.x0a (JS.encode s) -> contains LF s.
Proof.
  induction s as [|c s IH]; cbn [JS.encode]; [contradiction|].
  intros H. apply in_app_or in H as [H|H].
  - apply utf8_newline in H. subst c. exists "", s. reflexivity.
  - destruct (IH H) as (a & b & ->). exists (String c a), b. reflexivity.
Qed.

Lemma readUtf8_utf8 (c : ascii) (rest : list Byte.byte) :
  JS.readUtf8 (JS.utf8 c ++ rest) = option_map (String c) (JS.readUtf8 rest).
Proof. each_char c; reflexivity. Qed.

(** What [encode] writes can be read back. *)
Lemma readUtf8_encode (s : string) : JS.readUtf8 (JS.encode s) = Some s.
Proof.
  induction s as [|c s IH]; cbn [JS.encode]; [reflexivity|].
  now rewrite readUtf8_utf8, IH.
Qed.


(** X1: when connected, [sendCommand(cmd)] makes exactly one write: the
    UTF-8 bytes of [cmd] followed by one newline byte, which read back as
    [cmd] and a newline; nothing else changes; and when [cmd] holds no
    newline the newline byte written is the only one. *)
Theorem sendCommand_writes_one_line (cmd : string) (w : World) :
  connected w = true ->
  let w' := state_of (sendCommand cmd w) in
  writes (env w') = (writes (env w) ++ [JS.encode cmd ++ [Byte.x0a]])%list /\
  JS.readUtf8 (JS.encode cmd ++ [Byte.x0a]) = Some (cmd ++ LF) /\
  ctl w' = ctl w /\ page w' = page w /\
  alerts (env w') = alerts (env w) /\ timers (env w') = timers (env w) /\
  (~ contains LF cmd -> ~ In Byte.x0a (JS.encode cmd)).
Proof.
  intros Hc w'. subst w'. rewrite (sendCommand_connected cmd w Hc).
  assert (He : JS.encode (cmd ++ LF) = (JS.encode cmd ++ [Byte.x0a])%list)
    by (rewrite encode_app; reflexivity).
  rewrite <- He, readUtf8_encode.
  repeat split.
  intros Hn Hin. apply Hn. now apply encode_newline.
Qed.

Lemma sendCommand_writes_one_line_witness :
  writes (env (state_of (sendCommand "Q" worldReady))) =
    (writes (env worldReady) ++ [[Byte.x51; Byte.x0a]])%list.
Proof.
  exact (proj1 (sendCommand_writes_one_line "Q" worldReady eq_refl)).
Defined.

(** ** Numbers as text *)
















(** ** Starting and stopping *)



(** Splits on every [match] left in the goal. *)
Ltac crunch :=
  fields;
  repeat (match goal with
          | |- context [match ?x with _ => _ end] =>
              lazymatch x with
              | context [match _ with _ => _ end] => fail
              | _ => destruct x eqn:?
              end
          end; fields).

Lemma stopSession_afterStop (w : World) :
  connected w = false \/
  linkRejects (env w) (List.length (writes (env w))) = None ->
  stopSession w = Fulfilled (afterStop w).
Proof.
  unfold afterStop. explode w.
  destruct ti as [[|id]|]; cbn [Nat.eqb]; fields;
    (destruct wc; fields;
     [intros [H|H]; [discriminate|]; rewrite H
     |intros _; rewrite app_nil_r]);
    reflexivity.
Qed.

(** X5: when the controller is not connected or the link accepts the
    writes, a second [stopSession()] right after the first changes
    neither the controller, nor the page, nor the timers; all it does is
    write the end command once more when connected. *)
Theorem stopSession_twice (w : World) :
  connected w = false \/ linkAccepts w ->
  let w1 := state_of (stopSession w) in
  let w2 := state_of (stopSession w1) in
  fulfilled (stopSession w) = true /\
  fulfilled (stopSession w1) = true /\
  ctl w2 = ctl w1 /\ page w2 = page w1 /\
  timers (env w2) = timers (env w1) /\
  alerts (env w2) = alerts (env w1) /\
  writes (env w2) =
    (writes (env w1) ++
     (if connected w then [JS.encode ("-" ++ LF)] else []))%list.
Proof.
  intros Hl.
  assert (H1 : stopSession w = Fulfilled (afterStop w)).
  { apply stopSession_afterStop. destruct Hl as [Hl|Hl]; [now left|right; apply Hl]. }
  assert (H2 : stopSession (afterStop w) = Fulfilled (afterStop (afterStop w))).
  { apply stopSession_afterStop. destruct Hl as [Hl|Hl]; [left|right; apply Hl].
    unfold connected in *. exact Hl. }
  cbn zeta. rewrite H1. cbn [state_of fulfilled]. rewrite H2.
  cbn [state_of fulfilled].
  clear. unfold afterStop. explode w.
  destruct ti as [[|id]|]; cbn [Nat.eqb negb]; fields;
    repeat split; reflexivity.
Qed.

Lemma stopSession_twice_witness :
  ctl (state_of (stopSession (state_of (stopSession worldActive)))) =
  ctl (state_of (stopSession worldActive)).
Proof.
  destruct (stopSession_twice worldActive (or_intror (fun _ => eq_refl)))
    as (_ & _ & H & _).
  exact H.
Defined.




(** ** What no event does *)

Lemma keeps_refl w : keeps w w.
Proof. repeat split. intros H; exact H. Qed.

Lemma keeps_trans w1 w2 w3 : keeps w1 w2 -> keeps w2 w3 -> keeps w1 w3.
Proof.
  intros (Hp & Hl & Hc) (Hp' & Hl' & Hc').
  split; [congruence|]. split; [congruence|]. intros H. apply Hc', Hc, H.
Qed.

Lemma keeps_detach w p : keeps w (state_of p) -> keeps w (detach p).
Proof. now destruct p. Qed.

Ltac keeps_tac w :=
  unfold keeps; explode w; crunch; repeat split; try reflexivity;
  first [discriminate | intros Hcon; exact Hcon].

Lemma setMode_keeps m w : keeps w (state_of (setMode m w)).
Proof. keeps_tac w. Qed.

Lemma setIntensity_keeps n w : keeps w (state_of (setIntensity n w)).
Proof. keeps_tac w. Qed.

Lemma startSession_keeps w : keeps w (state_of (startSession w)).
Proof. keeps_tac w. Qed.

Lemma stopSession_keeps w : keeps w (state_of (stopSession w)).
Proof. keeps_tac w. Qed.

Lemma loadPreset_keeps p w : keeps w (state_of (loadPreset p w)).
Proof.
  unfold loadPreset.
  set (w1 := with_page _ _).
  assert (H1 : keeps w w1) by (repeat split; intros H; exact H).
  pose proof (startSession_keeps w1) as H2.
  destruct (startSession w1) as [w2|e w2]; cbn [andThen state_of] in *;
    (eapply keeps_trans; [exact H1|exact H2]).
Qed.

Lemma onConnected_keeps w : keeps w (state_of (onConnected w)).
Proof. unfold onConnected, startStatusPolling. keeps_tac w. Qed.

Lemma connect_keeps l w : keeps w (state_of (connect l w)).
Proof.
  unfold connect, connect_try, awaitAnswer.
  destruct l as [[d|e1] [s|e2] [v|e3] [c|e4] [n|e5] [u|e6]];
    cbn [requestDevice gattConnect getPrimaryService getWriteCharacteristic
         getNotifyCharacteristic startNotifications state_of];
    try (repeat split; try (intros H; exact H); fail).
  eapply keeps_trans; [|apply keeps_detach, onConnected_keeps].
  repeat split.
Qed.

Lemma run_callback_keeps cb w : keeps w (run_callback cb w).
Proof.
  destruct cb; cbn [run_callback].
  - destruct (updateTimer_frame w) as (Hc & He & _).
    unfold keeps, connected. rewrite Hc, He. repeat split. intros H; exact H.
  - apply keeps_detach. unfold pollTick.
    destruct (writeCharacteristic (ctl w)) eqn:E; [|apply keeps_refl].
    unfold sendCommand. rewrite E. unfold writeValue.
    destruct (linkRejects _ _); repeat split; intros H; exact H.
  - apply keeps_detach, stopSession_keeps.
Qed.

Lemma handle_keeps e w : keeps w (handle e w).
Proof.
  destruct e; cbn [handle].
  - apply keeps_detach, connect_keeps.
  - eapply keeps_trans; [apply keeps_detach, setMode_keeps|].
    repeat split. intros H; exact H.
  - set (w1 := with_page _ (with_page _ w)).
    assert (H1 : keeps w w1) by (repeat split; intros H; exact H).
    destruct (sessionActive (ctl w1)); [|exact H1].
    eapply keeps_trans; [exact H1|apply keeps_detach, setIntensity_keeps].
  - apply keeps_detach, startSession_keeps.
  - apply keeps_detach, stopSession_keeps.
  - apply keeps_detach, loadPreset_keeps.
  - apply keeps_detach, setMode_keeps.
  - apply keeps_detach, setIntensity_keeps.
  - unfold keeps, connected.
    rewrite iter_handleNotification_ctl, iter_handleNotification_env.
    repeat split. intros H; exact H.
  - unfold fire.
    destruct (find _ (timers (env w))) as [t|]; [|apply keeps_refl].
    destruct (earliest (t_due t) w); [|apply keeps_refl].
    eapply keeps_trans; [|apply run_callback_keeps].
    repeat split. intros H; exact H.
  - unfold wait. destruct (_ && _); [|apply keeps_refl].
    repeat split. intros H; exact H.
Qed.

Lemma run_keeps es w : keeps w (run es w).
Proof.
  revert w; induction es as [|e es IH]; intros w; [apply keeps_refl|].
  cbn [run fold_left]. eapply keeps_trans; [apply handle_keeps|apply IH].
Qed.

(** X7: nothing disconnects the controller: once the write characteristic
    is set, it stays set through every sequence of events (clicks, method
    calls, notifications, timers, failed attempts to connect again), so
    the controller never goes back to [Idle]. *)
Theorem never_disconnects (es : list Event) (w : World) :
  connected w = true ->
  connected (run es w) = true /\ stateOf (run es w) <> Idle.
Proof.
  intros H. destruct (run_keeps es w) as (_ & _ & Hc).
  specialize (Hc H). split; [exact Hc|].
  unfold stateOf. rewrite Hc. destruct (sessionActive _); discriminate.
Qed.

Lemma never_disconnects_witness :
  connected (run [EvStart; EvStop; EvConnect noDeviceLink] worldReady) = true.
Proof.
  exact (proj1 (never_disconnects [EvStart; EvStop; EvConnect noDeviceLink]
                  worldReady eq_refl)).
Defined.

(** ** Which timers [stopSession] cancels *)

Lemma tickerWf_none ti tms nid : tickerWf ti tms nid -> tickerWf None tms nid.
Proof. intros (H0 & Hlt & _). now repeat split. Qed.

Lemma tickerWf_other ti tms nid k cb due per :
  tickerWf ti tms nid ->
  tickerWf ti (tms ++ [mkTimer nid k cb due per]) (S nid).
Proof.
  intros (H0 & Hlt & Hti). split; [lia|]. split.
  - apply Forall_app. split.
    + eapply Forall_impl; [|exact Hlt]. cbn. intros; lia.
    + repeat constructor.
  - destruct ti as [id|]; [|exact I]. destruct Hti as [Hid Hcb].
    split; [lia|]. apply Forall_app. split; [exact Hcb|].
    constructor; [|constructor]. cbn. intros; lia.
Qed.

Lemma tickerWf_start ti tms nid due per :
  tickerWf ti tms nid ->
  tickerWf (Some nid) (tms ++ [mkTimer nid Interval CbUpdateTimer due per]) (S nid).
Proof.
  intros (H0 & Hlt & _). split; [lia|]. split.
  - apply Forall_app. split.
    + eapply Forall_impl; [|exact Hlt]. cbn. intros; lia.
    + repeat constructor.
  - split; [lia|]. apply Forall_app. split.
    + eapply Forall_impl; [|exact Hlt]. cbn. intros; lia.
    + constructor; [|constructor]. reflexivity.
Qed.

Lemma Forall_filter_keep {A} (P : A -> Prop) (f : A -> bool) (l : list A) :
  Forall P l -> Forall P (filter f l).
Proof.
  rewrite !Forall_forall. intros H x Hx. apply filter_In in Hx as [Hx _].
  now apply H.
Qed.

Lemma tickerWf_filter ti tms nid f :
  tickerWf ti tms nid -> tickerWf ti (filter f tms) nid.
Proof.
  intros (H0 & Hlt & Hti). split; [exact H0|].
  split; [now apply Forall_filter_keep|].
  destruct ti as [id|]; [|exact I]. destruct Hti as [Hid Hcb].
  split; [exact Hid|now apply Forall_filter_keep].
Qed.

Lemma tickerWf_reschedule ti tms nid t at_ :
  tickerWf ti tms nid -> tickerWf ti (reschedule t at_ tms) nid.
Proof.
  intros H. unfold reschedule. destruct (t_kind t); [|now apply tickerWf_filter].
  destruct H as (H0 & Hlt & Hti). split; [exact H0|].
  assert (Hmap : forall P : Timer -> Prop,
            (forall u d, P u -> P (mkTimer (t_id u) (t_kind u) (t_callback u) d (t_period u))) ->
            Forall P tms ->
            Forall P (map (fun u => if Nat.eqb (t_id u) (t_id t)
                                    then mkTimer (t_id u) (t_kind u) (t_callback u)
                                           (at_ + t_period u) (t_period u)
                                    else u) tms)).
  { intros P HP Hall. rewrite Forall_forall in *. intros u Hu.
    apply in_map_iff in Hu as (v & <- & Hv).
    destruct (Nat.eqb (t_id v) (t_id t)); [apply HP|]; now apply Hall. }
  split; [apply Hmap; [intros u d Hu; exact Hu|exact Hlt]|].
  destruct ti as [id|]; [|exact I]. destruct Hti as [Hid Hcb].
  split; [exact Hid|]. apply Hmap; [intros u d Hu; exact Hu|exact Hcb].
Qed.

Ltac ticker_solve :=
  repeat first
    [ eassumption
    | eapply tickerWf_start
    | apply tickerWf_other
    | apply tickerWf_filter
    | eapply tickerWf_none; eassumption ].

Ltac ticker_tac w :=
  unfold tickerOk; explode w; intros Hinv; crunch; ticker_solve.

Lemma setMode_ticker m w : tickerOk w -> tickerOk (state_of (setMode m w)).
Proof. ticker_tac w. Qed.

Lemma setIntensity_ticker n w : tickerOk w -> tickerOk (state_of (setIntensity n w)).
Proof. ticker_tac w. Qed.

Lemma startSession_ticker w : tickerOk w -> tickerOk (state_of (startSession w)).
Proof. ticker_tac w. Qed.

Lemma stopSession_ticker w : tickerOk w -> tickerOk (state_of (stopSession w)).
Proof. ticker_tac w. Qed.

Lemma loadPreset_ticker p w : tickerOk w -> tickerOk (state_of (loadPreset p w)).
Proof.
  intros H. unfold loadPreset.
  set (w1 := with_page _ _).
  assert (H1 : tickerOk w1) by exact H.
  apply startSession_ticker in H1.
  destruct (startSession w1) as [w2|e w2]; cbn [andThen state_of] in *;
    [|exact H1].
  unfold tickerOk, setTimeout, setTimer in *. cbn. ticker_solve.
Qed.

Lemma onConnected_ticker w : tickerOk w -> tickerOk (state_of (onConnected w)).
Proof. unfold onConnected, startStatusPolling. ticker_tac w. Qed.

Lemma detach_ticker p : tickerOk (state_of p) -> tickerOk (detach p).
Proof. now destruct p. Qed.

Lemma connect_ticker l w : tickerOk w -> tickerOk (state_of (connect l w)).
Proof.
  intros H. unfold connect, connect_try, awaitAnswer.
  destruct l as [[d|e1] [s|e2] [v|e3] [c|e4] [n|e5] [u|e6]];
    cbn [requestDevice gattConnect getPrimaryService getWriteCharacteristic
         getNotifyCharacteristic startNotifications state_of];
    try exact H.
  apply detach_ticker, onConnected_ticker. exact H.
Qed.

Lemma run_callback_ticker cb w : tickerOk w -> tickerOk (run_callback cb w).
Proof.
  intros H. destruct cb; cbn [run_callback].
  - destruct (updateTimer_frame w) as (Hc & He & _).
    unfold tickerOk. now rewrite Hc, He.
  - unfold pollTick. destruct (writeCharacteristic (ctl w)) eqn:E; [|exact H].
    unfold sendCommand. rewrite E. unfold writeValue.
    destruct (linkRejects _ _); exact H.
  - apply detach_ticker, stopSession_ticker, H.
Qed.

Lemma handle_ticker e w : tickerOk w -> tickerOk (handle e w).
Proof.
  intros H. destruct e; cbn [handle].
  - apply detach_ticker, connect_ticker, H.
  - apply (detach_ticker (setMode m w)), setMode_ticker, H.
  - destruct (sessionActive _); [|exact H].
    apply detach_ticker, setIntensity_ticker, H.
  - apply detach_ticker, startSession_ticker, H.
  - apply detach_ticker, stopSession_ticker, H.
  - apply detach_ticker, loadPreset_ticker, H.
  - apply detach_ticker, setMode_ticker, H.
  - apply detach_ticker, setIntensity_ticker, H.
  - unfold tickerOk.
    now rewrite iter_handleNotification_ctl, iter_handleNotification_env.
  - unfold fire.
    destruct (find _ (timers (env w))) as [t|]; [|exact H].
    destruct (earliest (t_due t) w); [|exact H].
    apply run_callback_ticker. unfold tickerOk. cbn.
    now apply tickerWf_reschedule.
  - unfold wait. destruct (_ && _); exact H.
Qed.

Lemma reachable_ticker w : reachable w -> tickerOk w.
Proof.
  induction 1 as [saved html t0 link|e w Hr IH].
  - split; [cbn; lia|]. split; [constructor|exact I].
  - now apply handle_ticker.
Qed.

(** X8: in every state the controller can reach, [stopSession()] cancels
    at most the elapsed-time ticker recorded in [timerInterval]: every
    pending timer that is not an elapsed-time ticker (the status poll,
    the auto-stop of a preset) is still pending afterwards, and
    [timerInterval] is empty. *)
Theorem stopSession_spares_other_timers (w : World) (t : Timer) :
  reachable w ->
  In t (timers (env w)) -> t_callback t <> CbUpdateTimer ->
  In t (timers (env (state_of (stopSession w)))) /\
  timerInterval (ctl (state_of (stopSession w))) = None.
Proof.
  intros Hr. pose proof (reachable_ticker w Hr) as Hinv. revert Hinv.
  unfold tickerOk. explode w. intros Hinv Hin Hcb.
  destruct ti as [id|]; fields.
  - destruct Hinv as (_ & _ & [Hid _] & Hall).
    destruct (Nat.eqb_spec id 0) as [->|Hne]; [lia|]. fields.
    assert (Hkeep : In t (filter (fun u => negb (Nat.eqb (t_id u) id)) tms)).
    { apply filter_In. split; [exact Hin|].
      destruct (Nat.eqb_spec (t_id t) id) as [E|E]; [|reflexivity].
      rewrite Forall_forall in Hall. elim Hcb. now apply Hall. }
    destruct wc; fields; case_link; split; first [exact Hkeep | reflexivity].
  - destruct wc; fields; case_link; split; first [exact Hin | reflexivity].
Qed.

Lemma stopSession_spares_other_timers_witness :
  In (mkTimer 1 Interval CbPoll 3200 3000)
    (timers (env (state_of (stopSession worldActive)))).
Proof.
  refine (proj1 (stopSession_spares_other_timers worldActive
                   (mkTimer 1 Interval CbPoll 3200 3000)
                   reachable_worldActive _ _)).
  - vm_compute. left. reflexivity.
  - discriminate.
Defined.

(** ** Connecting *)



(** X10: when every step of [connect()] succeeds but the link rejects
    the first of the three queries, [connect()] is still fulfilled and
    the controller is connected, but no alert is raised, the rejection
    is left unhandled, the other two queries are not written and the
    status poll is never started. *)
Theorem connect_without_polling (d s v c n : nat) (msg : string) (w : World) :
  linkRejects (env w) (List.length (writes (env w))) = Some msg ->
  let l := mkLink (Resolves d) (Resolves s) (Resolves v) (Resolves c)
             (Resolves n) (Resolves tt) in
  let w' := state_of (connect l w) in
  fulfilled (connect l w) = true /\
  connected w' = true /\
  connectedUI (page w') = true /\
  alerts (env w') = alerts (env w) /\
  unhandled (env w') = (unhandled (env w) ++ [msg])%list /\
  writes (env w') = (writes (env w) ++ [JS.encode ("i" ++ LF)])%list /\
  timers (env w') = timers (env w).
Proof.
  unfold connect, connect_try, awaitAnswer, onConnected, startStatusPolling.
  cbn [requestDevice gattConnect getPrimaryService getWriteCharacteristic
       getNotifyCharacteristic startNotifications].
  explode w. intros Hl. rewrite Hl. fields.
  repeat split; reflexivity.
Qed.

Lemma connect_without_polling_witness :
  timers (env (state_of (connect okLink
     (constructor None blankPage 0 (fun _ => Some "GATT operation failed"))))) = [].
Proof.
  destruct (connect_without_polling 1 2 3 4 5 "GATT operation failed"
              (constructor None blankPage 0 (fun _ => Some "GATT operation failed"))
              eq_refl)
    as (_ & _ & _ & _ & _ & _ & H).
  exact H.
Defined.

(** ** Notifications *)

Lemma dispatch_idem d w : dispatch d (dispatch d w) = dispatch d w.
Proof. destruct d; reflexivity. Qed.

Lemma contains_false (p s : string) : ~ contains p s -> JS.includes p s = false.
Proof.
  intros H. destruct (JS.includes p s) eqn:E; [|reflexivity].
  now apply includes_contains in E.
Qed.

(** X11: a notification only ever changes the four texts that show what
    the device reports: the controller (local mode, intensity, session),
    the clock, timers, writes and alerts, and the rest of the page are
    as before, so a reported mode is shown but never adopted.  Handling
    the same line again changes nothing more, and a line that matches
    none of the four rules changes nothing at all. *)
Theorem handleNotification_only_status (value : string) (w : World) :
  ctl (handleNotification value w) = ctl w /\
  env (handleNotification value w) = env w /\
  (timer (page (handleNotification value w)) = timer (page w) /\
   intensitySlider (page (handleNotification value w)) = intensitySlider (page w) /\
   intensityDisplay (page (handleNotification value w)) = intensityDisplay (page w) /\
   startBtnDisabled (page (handleNotification value w)) = startBtnDisabled (page w) /\
   activeModeBtns (page (handleNotification value w)) = activeModeBtns (page w) /\
   connectedUI (page (handleNotification value w)) = connectedUI (page w)) /\
  handleNotification value (handleNotification value w) =
    handleNotification value w /\
  (forall n, Nat.iter (S n) (handleNotification value) w =
             handleNotification value w) /\
  (~ hasPrefix "Pulsetto_" value -> ~ hasPrefix "fw:" value ->
   ~ contains "Batt:" value -> ~ contains "mode:" value ->
   handleNotification value w = w).
Proof.
  split; [apply handleNotification_ctl|].
  split; [apply handleNotification_env|].
  split; [rewrite handleNotification_decode; destruct (decode value);
          repeat split|].
  assert (Hidem : forall w0, handleNotification value (handleNotification value w0) =
                             handleNotification value w0).
  { intros w0. rewrite !handleNotification_decode. apply dispatch_idem. }
  split; [apply Hidem|]. split.
  - induction n as [|n IH]; [reflexivity|].
    change (Nat.iter (S (S n)) (handleNotification value) w)
      with (handleNotification value (Nat.iter (S n) (handleNotification value) w)).
    rewrite IH. apply Hidem.
  - intros Hp Hf Hb Hm. unfold handleNotification.
    now rewrite (startsWith_false _ _ Hp), (startsWith_false _ _ Hf),
      (contains_false _ _ Hb), (contains_false _ _ Hm).
Qed.

Lemma handleNotification_only_status_witness :
  handleNotification "OK" worldActive = worldActive.
Proof.
  refine (proj2 (proj2 (proj2 (proj2 (proj2
            (handleNotification_only_status "OK" worldActive))))) _ _ _ _);
    apply (proj1 (not_iff_compat (includes_contains _ _))) ||
    apply (proj1 (not_iff_compat (startsWith_hasPrefix _ _)));
    vm_compute; discriminate.
Defined.

(** *** What [split] returns *)

Lemma append_nil_r (s : string) : s ++ "" = s.
Proof. induction s as [|c s IH]; cbn; [reflexivity|now rewrite IH]. Qed.

Lemma append_assoc (a b c : string) : (a ++ b) ++ c = a ++ b ++ c.
Proof. induction a as [|x a IH]; cbn; [reflexivity|now rewrite IH]. Qed.

(** With no separator in [s], [split] returns [s] whole. *)
Lemma split_go_none (sep cur s : string) :
  JS.includes sep s = false -> JS.split_go sep 0 cur s = [cur ++ s].
Proof.
  revert cur; induction s as [|c s IH]; intros cur H.
  - cbn. now rewrite append_nil_r.
  - cbn [JS.includes] in H. apply orb_false_iff in H as [H1 H2].
    cbn [JS.split_go]. rewrite H1, (IH _ H2), append_assoc. reflexivity.
Qed.

(** The characters of a matched separator are dropped. *)
Lemma split_go_skip (sep pre cur s : string) :
  JS.split_go sep (String.length pre) cur (pre ++ s) = JS.split_go sep 0 cur s.
Proof.
  induction pre as [|c pre IH]; [reflexivity|]. cbn. exact IH.
Qed.

(** When the first separator of a line starts right after [a], the first
    piece is [a] and the rest is split in the same way. *)
Lemma split_go_first (c0 : ascii) (sep' a b cur : string) :
  (forall a1 a2, a = a1 ++ a2 -> a2 <> "" ->
     JS.startsWith (String c0 sep') (a2 ++ String c0 sep' ++ b) = false) ->
  JS.split_go (String c0 sep') 0 cur (a ++ String c0 sep' ++ b) =
  (cur ++ a) :: JS.split_go (String c0 sep') 0 "" b.
Proof.
  revert cur; induction a as [|c a IH]; intros cur H.
  - cbn [append JS.split_go].
    pose proof (startsWith_app (String c0 sep') b) as Hs.
    cbn [append] in Hs. rewrite Hs, append_nil_r.
    cbn [String.length Nat.pred]. now rewrite split_go_skip.
  - cbn [append JS.split_go].
    assert (Hs : JS.startsWith (String c0 sep')
                   (String c a ++ String c0 sep' ++ b) = false)
      by (apply (H "" (String c a) eq_refl); discriminate).
    cbn [append] in Hs. rewrite Hs.
    rewrite IH, append_assoc; [reflexivity|].
    intros a1 a2 -> Hne. apply (H (String c a1) a2 eq_refl Hne).
Qed.

Lemma includes_suffix (sep a1 a2 : string) :
  JS.includes sep (a1 ++ a2) = false -> JS.startsWith sep a2 = false.
Proof.
  induction a1 as [|c a1 IH]; cbn [append].
  - destruct a2; cbn [JS.includes]; intros H;
      apply orb_false_iff in H as [H _]; exact H.
  - cbn [JS.includes]. intros H. apply orb_false_iff in H as [_ H]. now apply IH.
Qed.

Ltac eqb_cases :=
  cbn [JS.startsWith append];
  repeat match goal with
    | |- context [Ascii.eqb ?x ?c] =>
        first [ is_var c; destruct (Ascii.eqb x c)
              | let b := eval vm_compute in (Ascii.eqb x c) in
                change (Ascii.eqb x c) with b ]
    end;
  reflexivity.

(** [Batt:] and [mode:] do not overlap themselves: an occurrence that
    starts before another one also ends before it. *)
Lemma no_overlap_Batt (a2 rest : string) :
  a2 <> "" -> JS.startsWith "Batt:" a2 = false ->
  JS.startsWith "Batt:" (a2 ++ "Batt:" ++ rest) = false.
Proof.
  intros Hne H.
  destruct a2 as [|c1 [|c2 [|c3 [|c4 [|c5 a2]]]]];
    [contradiction|eqb_cases..|exact H].
Qed.

Lemma no_overlap_mode (a2 rest : string) :
  a2 <> "" -> JS.startsWith "mode:" a2 = false ->
  JS.startsWith "mode:" (a2 ++ "mode:" ++ rest) = false.
Proof.
  intros Hne H.
  destruct a2 as [|c1 [|c2 [|c3 [|c4 [|c5 a2]]]]];
    [contradiction|eqb_cases..|exact H].
Qed.

Lemma split_Batt (a b : string) :
  ~ contains "Batt:" a ->
  JS.split "Batt:" (a ++ "Batt:" ++ b) = a :: JS.split "Batt:" b.
Proof.
  intros Ha. apply contains_false in Ha. unfold JS.split.
  apply (split_go_first "B" "att:" a b "").
  intros a1 a2 -> Hne. apply no_overlap_Batt; [exact Hne|].
  now apply (includes_suffix _ a1).
Qed.

Lemma split_mode (a b : string) :
  ~ contains "mode:" a ->
  JS.split "mode:" (a ++ "mode:" ++ b) = a :: JS.split "mode:" b.
Proof.
  intros Ha. apply contains_false in Ha. unfold JS.split.
  apply (split_go_first "m" "ode:" a b "").
  intros a1 a2 -> Hne. apply no_overlap_mode; [exact Hne|].
  now apply (includes_suffix _ a1).
Qed.

(** X12: on a line that does not start with [Pulsetto_] or [fw:] and
    whose first [Batt:] comes right after [a], the battery text becomes
    what follows that [Batt:], trimmed and with [V] appended, when no
    other [Batt:] follows; when another one follows, only the text
    between the two is shown and the rest of the line is dropped. *)
Theorem battery_text (a b : string) (w : World) :
  ~ hasPrefix "Pulsetto_" (a ++ "Batt:" ++ b) ->
  ~ hasPrefix "fw:" (a ++ "Batt:" ++ b) ->
  ~ contains "Batt:" a ->
  (~ contains "Batt:" b ->
   handleNotification (a ++ "Batt:" ++ b) w =
     with_page (set_battery (JS.trim b ++ "V")) w) /\
  (forall b1 b2, b = b1 ++ "Batt:" ++ b2 -> ~ contains "Batt:" b1 ->
   handleNotification (a ++ "Batt:" ++ b) w =
     with_page (set_battery (JS.trim b1 ++ "V")) w).
Proof.
  intros Hp Hf Ha.
  assert (Hinc : JS.includes "Batt:" (a ++ "Batt:" ++ b) = true)
    by (apply includes_contains; now exists a, b).
  apply startsWith_false in Hp. apply startsWith_false in Hf.
  unfold handleNotification. rewrite Hp, Hf, Hinc, (split_Batt a b Ha).
  cbn [nth]. split.
  - intros Hb. apply contains_false in Hb.
    unfold JS.split. now rewrite (split_go_none _ _ _ Hb).
  - intros b1 b2 -> Hb1. now rewrite (split_Batt b1 b2 Hb1).
Qed.

Lemma battery_text_witness :
  handleNotification "Batt: 3.91 Batt: 4.02" world0 =
    with_page (set_battery "3.91V") world0.
Proof.
  refine (proj2 (battery_text "" " 3.91 Batt: 4.02" world0 _ _ _)
            " 3.91 " " 4.02" eq_refl _);
    apply (proj1 (not_iff_compat (includes_contains _ _))) ||
    apply (proj1 (not_iff_compat (startsWith_hasPrefix _ _)));
    vm_compute; discriminate.
Defined.

(** X13: on a line without [Batt:] that does not start with [Pulsetto_]
    or [fw:] and holds [mode:] once, the mode text becomes the label of
    what follows [mode:], trimmed: [OFF], [LEFT], [RIGHT] or [BOTH] for
    [0], [A], [C], [D], and that text itself otherwise. *)
Theorem mode_text (a b : string) (w : World) :
  ~ hasPrefix "Pulsetto_" (a ++ "mode:" ++ b) ->
  ~ hasPrefix "fw:" (a ++ "mode:" ++ b) ->
  ~ contains "Batt:" (a ++ "mode:" ++ b) ->
  ~ contains "mode:" a -> ~ contains "mode:" b ->
  handleNotification (a ++ "mode:" ++ b) w =
    with_page (set_mode (modeText (JS.trim b))) w.
Proof.
  intros Hp Hf Hb Ha Hb'.
  assert (Hinc : JS.includes "mode:" (a ++ "mode:" ++ b) = true)
    by (apply includes_contains; now exists a, b).
  apply startsWith_false in Hp. apply startsWith_false in Hf.
  apply contains_false in Hb. apply contains_false in Hb'.
  unfold handleNotification. rewrite Hp, Hf, Hb, Hinc, (split_mode a b Ha).
  cbn [nth]. unfold JS.split. now rewrite (split_go_none _ _ _ Hb').
Qed.

Lemma mode_text_witness :
  handleNotification "status mode: A " world0 =
    with_page (set_mode "LEFT") world0.
Proof.
  refine (mode_text "status " " A " world0 _ _ _ _ _);
    apply (proj1 (not_iff_compat (includes_contains _ _))) ||
    apply (proj1 (not_iff_compat (startsWith_hasPrefix _ _)));
    vm_compute; discriminate.
Defined.

(** ** The elapsed-time display *)





(** ** Presets: loading, saving, deleting *)



Lemma trim_allWhite (s : string) : allWhite s = true -> JS.trim s = "".
Proof.
  unfold JS.trim. induction s as [|c s IH]; cbn; [reflexivity|].
  intros H. apply andb_true_iff in H as [-> H]. now apply IH.
Qed.



(** X16: [savePreset()] refuses a name that is empty or made of white
    space only: it raises the alert asking for a name and changes nothing
    else, whatever the other inputs hold: the presets, the stored entry,
    the list shown and the dialog stay as they are. *)
Theorem savePreset_blank_name (a : App) :
  allWhite (presetName (form a)) = true ->
  exists a',
    savePreset a = Some a' /\
    alerts (env (world a')) =
      (alerts (env (world a)) ++ ["Please enter a preset name"])%list /\
    presets (ctl (world a')) = presets (ctl (world a)) /\
    storage a' = storage a /\ presetsList a' = presetsList a /\
    modalHidden a' = modalHidden a /\ form a' = form a.
Proof.
  intros H. unfold savePreset. rewrite (trim_allWhite _ H). cbn [JS.truthy negb].
  eexists. split; [reflexivity|]. repeat split.
Qed.



Lemma savePreset_blank_name_witness :
  exists a',
    savePreset (mkApp world0 None NoPresetsSaved false
                  (mkForm "   " "A" "6" "10")) = Some a' /\
    presets (ctl (world a')) = [].
Proof.
  destruct (savePreset_blank_name
              (mkApp world0 None NoPresetsSaved false
                 (mkForm "   " "A" "6" "10")) eq_refl)
    as (a' & Hs & _ & Hp & _).
  exists a'. split; [exact Hs|exact Hp].
Defined.

Lemma splice1_nth {A} (i j : nat) (l : list A) :
  nth_error (splice1 i l) j =
  if Nat.ltb j i then nth_error l j else nth_error l (S j).
Proof.
  revert j l; induction i as [|i IH]; intros j l.
  - destruct l; [now destruct j|reflexivity].
  - destruct l as [|x l]; [destruct (Nat.ltb j (S i)); now destruct j|].
    change (splice1 (S i) (x :: l)) with (x :: splice1 i l).
    destruct j as [|j]; [reflexivity|].
    cbn [nth_error]. rewrite IH.
    change (Nat.ltb (S j) (S i)) with (Nat.ltb j i). reflexivity.
Qed.

Lemma splice1_length {A} (i : nat) (l : list A) :
  List.length (splice1 i l) =
  if Nat.ltb i (List.length l) then Nat.pred (List.length l) else List.length l.
Proof.
  revert l; induction i as [|i IH]; intros l.
  - destruct l; reflexivity.
  - destruct l as [|x l]; [reflexivity|].
    change (splice1 (S i) (x :: l)) with (x :: splice1 i l).
    cbn [List.length]. rewrite IH.
    change (Nat.ltb (S i) (S (List.length l))) with (Nat.ltb i (List.length l)).
    destruct (Nat.ltb_spec i (List.length l)); [|reflexivity].
    destruct l; [cbn in *; lia|reflexivity].
Qed.

(** X18: [deletePreset(index)] does nothing when the user does not
    confirm.  When confirmed it removes exactly the preset at [index]:
    the presets before it keep their places, those after it move up by
    one, and the list is one shorter (or unchanged when there is no
    preset at [index]); the new list is stored and shown. *)
Theorem deletePreset_removes_one (index : nat) (a : App) :
  deletePreset index false a = a /\
  let a' := deletePreset index true a in
  let old := presets (ctl (world a)) in
  (forall j, (j < index)%nat ->
     nth_error (presets (ctl (world a'))) j = nth_error old j) /\
  (forall j, (index <= j)%nat ->
     nth_error (presets (ctl (world a'))) j = nth_error old (S j)) /\
  List.length (presets (ctl (world a'))) =
    (if Nat.ltb index (List.length old) then Nat.pred (List.length old)
     else List.length old) /\
  storage a' = Some (presets (ctl (world a'))) /\
  presetsList a' = rendered (presets (ctl (world a'))) /\
  env (world a') = env (world a) /\ page (world a') = page (world a) /\
  modalHidden a' = modalHidden a /\ form a' = form a.
Proof.
  split; [reflexivity|]. cbn zeta.
  assert (Hp : presets (ctl (world (deletePreset index true a))) =
               splice1 index (presets (ctl (world a)))) by reflexivity.
  rewrite Hp. split.
  - intros j Hj. rewrite splice1_nth.
    now apply Nat.ltb_lt in Hj as ->.
  - split.
    + intros j Hj. rewrite splice1_nth.
      now apply Nat.ltb_ge in Hj as ->.
    + split; [apply splice1_length|]. repeat split.
Qed.

Lemma deletePreset_removes_one_witness :
  presets (ctl (world (deletePreset 0 true
     (mkApp (constructor (Some [rest; calm]) blankPage 0 (fun _ => None))
        (Some [rest; calm]) NoPresetsSaved true (mkForm "" "" "" ""))))) = [calm].
Proof.
  pose proof (deletePreset_removes_one 0
     (mkApp (constructor (Some [rest; calm]) blankPage 0 (fun _ => None))
        (Some [rest; calm]) NoPresetsSaved true (mkForm "" "" "" ""))) as H.
  destruct H as (_ & _ & H1 & Hlen & _).
  set (l := presets _) in *.
  destruct l as [|p [|q l]]; try discriminate Hlen.
  specialize (H1 0%nat (Nat.le_refl 0)). cbn in H1. now injection H1 as ->.
Defined.

(** *** The stored entry and the list shown *)










(** ** Buttons, slider and alerts *)

(** X21: a click on a mode button always records the mode and, when
    connected, writes the mode line at once, session or not; moving the
    slider always updates the slider and its display but changes the
    current intensity and writes the intensity line only while a session
    is active. *)
Theorem mode_button_and_slider (m : string) (v : Z) (w : World) :
  currentMode (ctl (handle (EvModeClick m) w)) = m /\
  activeModeBtns (page (handle (EvModeClick m) w)) = [m] /\
  (connected w = true ->
   writes (env (handle (EvModeClick m) w)) =
     (writes (env w) ++ [JS.encode (m ++ LF)])%list) /\
  intensitySlider (page (handle (EvSliderInput v) w)) = v /\
  intensityDisplay (page (handle (EvSliderInput v) w)) = v /\
  (sessionActive (ctl w) = false ->
   ctl (handle (EvSliderInput v) w) = ctl w /\
   env (handle (EvSliderInput v) w) = env w) /\
  (sessionActive (ctl w) = true ->
   currentIntensity (ctl (handle (EvSliderInput v) w)) = v /\
   (connected w = true ->
    writes (env (handle (EvSliderInput v) w)) =
      (writes (env w) ++ [JS.encode (JS.toString v ++ LF)])%list)).
Proof.
  cbn [handle]. explode w.
  split; [destruct wc; fields; case_link; reflexivity|].
  split; [destruct wc; fields; case_link; reflexivity|].
  split; [destruct wc; fields; [intros _|discriminate]; case_link; reflexivity|].
  destruct sa; fields.
  - split; [destruct wc; fields; case_link; reflexivity|].
    split; [destruct wc; fields; case_link; reflexivity|].
    split; [discriminate|]. intros _.
    split; [destruct wc; fields; case_link; reflexivity|].
    destruct wc; fields; [intros _|discriminate]; case_link; reflexivity.
  - repeat split; discriminate.
Qed.

Lemma mode_button_and_slider_witness :
  writes (env (handle (EvSliderInput 8) worldReady)) = writes (env worldReady) /\
  writes (env (handle (EvSliderInput 8) worldActive)) =
    (writes (env worldActive) ++ [[Byte.x38; Byte.x0a]])%list.
Proof.
  destruct (mode_button_and_slider "A" 8 worldReady)
    as (_ & _ & _ & _ & _ & Hoff & _).
  destruct (mode_button_and_slider "A" 8 worldActive)
    as (_ & _ & _ & _ & _ & _ & Hon).
  split.
  - now rewrite (proj2 (Hoff eq_refl)).
  - exact (proj2 (Hon eq_refl) eq_refl).
Defined.














